(** * Software-error-detection: the feature pipeline and its fallback model

    A shallow embedding of the three utility modules the defect predictor
    is built from,

      - [software_defect_detection/utils/static_analysis.py]  (metric extractor),
      - [utils/feature_extract.py]  (feature vectorizer and model provider),
      - [software_defect_detection/utils/promise_ingest.py]  (dataset ingestor),

    and of the callers that feed them (the upload readers and the request
    handler of [app.py] and [streamlit_app.py], the target detection and
    the model selection of [ml_defect_detection.py]), followed by the
    properties stated about them.

    Conventions.  A Python [str] is a list of Unicode code points ([N]).
    A Python [float] that holds a count or a quotient of counts is the
    rational number it denotes ([Q]); rounding is not modelled, and what
    is stated of a quotient is what its rounded value has too: its sign,
    its order against integers, its value where that is a float, a bound
    on its error.  A [dict] with string keys is a [gmap string _].
    Effects (the file system, the work done by a call, what an unseeded
    random generator would draw) are threaded through an explicit
    world. *)

From Stdlib Require Import ZArith NArith QArith Qround Qabs Lia.
From stdpp Require Import gmap strings list sorting.

Open Scope N_scope.

(* ===================================================================== *)
(** * Part I.  The embedding                                              *)
(* ===================================================================== *)

(** ** Python strings *)

Module PyStr.

(** A code point, and a string of them. *)
Abbreviation char := N (only parsing).
Abbreviation pystr := (list N) (only parsing).

(** A literal of the source, written as a Rocq string (ASCII only). *)
Definition lit (s : string) : pystr :=
  map Ascii.N_of_ascii (String.list_ascii_of_string s).

(** The rows of the interpreter's Unicode database outside ASCII.  They
    belong to the Python runtime, not to this repository, and nothing
    below depends on their contents; the ASCII rows are written out. *)
Class UnicodeDB : Type := {
  uni_isspace : char -> bool;       (* str.isspace, also \s *)
  uni_isalnum : char -> bool;       (* str.isalnum, also \w *)
  uni_tolower : char -> char;       (* simple lower-case mapping (re) *)
}.

Definition is_ascii (c : char) : bool := c <? 128.

Definition in_range (lo hi c : char) : bool := (lo <=? c) && (c <=? hi).

(** [str.isspace] on one code point: TAB..CR, FS..US and SPACE in ASCII. *)
Definition isspace `{UnicodeDB} (c : char) : bool :=
  if is_ascii c
  then in_range 9 13 c || in_range 28 31 c || (c =? 32)
  else uni_isspace c.

(** [\w]: alphanumeric or underscore. *)
Definition isword `{UnicodeDB} (c : char) : bool :=
  if is_ascii c
  then in_range 48 57 c || in_range 65 90 c || in_range 97 122 c || (c =? 95)
  else uni_isalnum c.

(** Lower-casing of one code point as [re.IGNORECASE] does it. *)
Definition tolower `{UnicodeDB} (c : char) : char :=
  if is_ascii c
  then (if in_range 65 90 c then c + 32 else c)
  else uni_tolower c.

(** The line boundaries of [str.splitlines]:
    LF, VT, FF, CR, FS, GS, RS, NEL, LS and PS. *)
Definition is_linebreak (c : char) : bool :=
  in_range 10 13 c || in_range 28 30 c || (c =? 133)
  || (c =? 8232) || (c =? 8233).

(** [str.splitlines()]: the text is cut at every line boundary, CR LF
    counting as one; the boundaries are dropped, and a boundary at the
    very end opens no further line.  [cur] holds the characters of the
    line being read, last one first. *)
Fixpoint splitlines_from (cur : pystr) (s : pystr) : list pystr :=
  match s with
  | [] => match cur with [] => [] | _ => [rev cur] end
  | c :: t =>
      if is_linebreak c then
        rev cur ::
          (if c =? 13
           then match t with
                | d :: t' => if d =? 10 then splitlines_from [] t'
                             else splitlines_from [] t
                | [] => splitlines_from [] t
                end
           else splitlines_from [] t)
      else splitlines_from (c :: cur) t
  end.

Definition splitlines (s : pystr) : list pystr := splitlines_from [] s.

(** [str.lstrip()], [str.rstrip()] and [str.strip()]. *)
Fixpoint lstrip `{UnicodeDB} (s : pystr) : pystr :=
  match s with
  | c :: t => if isspace c then lstrip t else s
  | [] => []
  end.

Definition rstrip `{UnicodeDB} (s : pystr) : pystr := rev (lstrip (rev s)).

Definition strip `{UnicodeDB} (s : pystr) : pystr := rstrip (lstrip s).

(** Truth value of a string: non-empty. *)
Definition truthy (s : pystr) : bool :=
  match s with [] => false | _ => true end.

(** [s.startswith(p)]. *)
Fixpoint startswith (s p : pystr) : bool :=
  match p, s with
  | [], _ => true
  | a :: p', b :: s' => (a =? b) && startswith s' p'
  | _ :: _, [] => false
  end.

(** [p in s]. *)
Fixpoint contains (s p : pystr) : bool :=
  startswith s p ||
  match s with
  | [] => false
  | _ :: s' => contains s' p
  end.

(** [s[i:j]] for [0 <= i <= j]. *)
Definition slice (s : pystr) (i j : nat) : pystr := take (j - i) (drop i s).

End PyStr.

(** ** Regular expressions: the fragment of [re] the source uses *)

Module Re.
Import PyStr.

(** One-character classes. *)
Inductive cset : Type :=
| CLit (c : char)         (* the character itself *)
| CLitI (c : char)        (* an ASCII letter under re.IGNORECASE *)
| CWord                   (* \w *)
| CSpace                  (* \s *)
| CDot.                   (* .  (no DOTALL: anything but LF) *)

(** Patterns.  Repetition is only ever applied to a one-character class
    in the source ([\s+], [\w+], [\s*], [.*]), and always greedily. *)
Inductive regex : Type :=
| Chr (cs : cset)
| Boundary                (* \b *)
| Seq (r1 r2 : regex)
| Alt (r1 r2 : regex)
| Star (cs : cset).

Definition Plus (cs : cset) : regex := Seq (Chr cs) (Star cs).

(** A literal word, and a literal word under IGNORECASE. *)
Fixpoint Str_of (mk : char -> cset) (s : pystr) : regex :=
  match s with
  | [] => Star (CLit 0)   (* not used: every literal below is non-empty *)
  | [c] => Chr (mk c)
  | c :: t => Seq (Chr (mk c)) (Str_of mk t)
  end.

Definition Str (s : string) : regex := Str_of CLit (lit s).
Definition StrI (s : string) : regex := Str_of CLitI (lit s).

(** [a|b|...]: the alternatives are tried from left to right. *)
Fixpoint Alts (r : regex) (rs : list regex) : regex :=
  match rs with
  | [] => r
  | r' :: rs' => Alt r (Alts r' rs')
  end.

(** [w|w1|...|wn] for literal words. *)
Definition AnyOf (w : string) (ws : list string) : regex :=
  Alts (Str w) (map Str ws).

(** The other code points an ASCII lower-case letter also stands for under
    IGNORECASE (dotless i for [i], long s for [s]). *)
Definition ignorecase_fixes (lo : char) : list char :=
  if lo =? 105 then [305] else if lo =? 115 then [383] else [].

Definition cset_mem `{UnicodeDB} (cs : cset) (c : char) : bool :=
  match cs with
  | CLit a => a =? c
  | CLitI a =>
      let lo := tolower a in
      existsb (N.eqb (tolower c)) (lo :: ignorecase_fixes lo)
  | CWord => isword c
  | CSpace => isspace c
  | CDot => negb (c =? 10)
  end.

(** [\b] between the character before the position (if any) and the
    character at it (if any): exactly one of the two is a word
    character. *)
Definition word_of `{UnicodeDB} (c : option char) : bool :=
  match c with Some a => isword a | None => false end.

Definition at_boundary `{UnicodeDB} (prev : option char) (s : pystr) : bool :=
  xorb (word_of prev) (word_of (head s)).

(** The backtracking matcher.  [prev] is the character before the current
    position, [s] the text from the position on, and [k] what remains to
    be matched after the pattern; the answer is the text left after the
    whole match. *)
Definition cont : Type := option char -> pystr -> option pystr.

Fixpoint star_run (p : char -> bool) (k : cont)
    (prev : option char) (s : pystr) : option pystr :=
  match s with
  | c :: t =>
      if p c then
        match star_run p k (Some c) t with
        | Some x => Some x
        | None => k prev s
        end
      else k prev s
  | [] => k prev s
  end.

Fixpoint rmatch `{UnicodeDB} (r : regex) (k : cont)
    (prev : option char) (s : pystr) : option pystr :=
  match r with
  | Chr cs =>
      match s with
      | c :: t => if cset_mem cs c then k (Some c) t else None
      | [] => None
      end
  | Boundary => if at_boundary prev s then k prev s else None
  | Seq r1 r2 => rmatch r1 (rmatch r2 k) prev s
  | Alt r1 r2 =>
      match rmatch r1 k prev s with
      | Some x => Some x
      | None => rmatch r2 k prev s
      end
  | Star cs => star_run (cset_mem cs) k prev s
  end.

(** A match of [r] that starts exactly here: the text left after it. *)
Definition match_at `{UnicodeDB} (r : regex)
    (prev : option char) (s : pystr) : option pystr :=
  rmatch r (fun _ t => Some t) prev s.

(** The left-to-right scan behind [finditer]/[findall]: at each position
    not covered by the previous match the pattern is tried; a match of
    [n] characters is recorded as the span [(pos, pos + n)] and the next
    [n - 1] positions are skipped.  Every pattern of the source reads at
    least one character when it matches ([source_patterns_consume] and
    [match_at_consumes] below), so the special treatment [re] gives to
    empty matches never comes into play and is left out. *)
Fixpoint scan `{UnicodeDB} (r : regex) (pos : nat)
    (prev : option char) (s : pystr) (skip : nat) : list (nat * nat) :=
  match s with
  | [] => []
  | c :: t =>
      match skip with
      | S n => scan r (S pos) (Some c) t n
      | O =>
          match match_at r prev s with
          | Some rest =>
              let n := (length s - length rest)%nat in
              (pos, (pos + n)%nat) :: scan r (S pos) (Some c) t (n - 1)
          | None => scan r (S pos) (Some c) t 0
          end
      end
  end.

(** [pattern.finditer(text)], as the list of [Match.span()]s. *)
Definition finditer `{UnicodeDB} (r : regex) (text : pystr)
    : list (nat * nat) :=
  scan r 0 None text 0.

(** [pattern.findall(text)]: the matched texts, in order.  (For the two
    patterns with a group the group spans the whole match.) *)
Definition findall `{UnicodeDB} (r : regex) (text : pystr) : list pystr :=
  map (fun sp => slice text (fst sp) (snd sp)) (finditer r text).

(** *** What a match is

    The declarative reading of a pattern, against which the matcher is
    checked: [spans r prev m after] says that [r] can match the text [m]
    when [prev] is the character before it and [after] the text that
    follows. *)
Definition prev_after (prev : option char) (m : pystr) : option char :=
  match last m with
  | Some c => Some c
  | None => prev
  end.

Fixpoint spans `{UnicodeDB} (r : regex)
    (prev : option char) (m after : pystr) : Prop :=
  match r with
  | Chr cs => exists c, m = [c] /\ cset_mem cs c = true
  | Boundary => m = [] /\ at_boundary prev after = true
  | Seq r1 r2 =>
      exists m1 m2, m = m1 ++ m2
        /\ spans r1 prev m1 (m2 ++ after)
        /\ spans r2 (prev_after prev m1) m2 after
  | Alt r1 r2 => spans r1 prev m after \/ spans r2 prev m after
  | Star cs => Forall (fun c => cset_mem cs c = true) m
  end.

(** A pattern every match of which reads at least one character. *)
Fixpoint consumes (r : regex) : bool :=
  match r with
  | Chr _ => true
  | Boundary => false
  | Seq r1 r2 => consumes r1 || consumes r2
  | Alt r1 r2 => consumes r1 && consumes r2
  | Star _ => false
  end.

End Re.

(** ** [static_analysis.py] *)

Module StaticAnalysis.
Import PyStr Re.

(** [float(n)] for a count [n]. *)
Definition float_of_nat (n : nat) : Q := inject_Z (Z.of_nat n).

(** [CONTROL_KEYWORDS =
     re.compile(r"\b(if|elif|for|while|and|or|case|except|catch|&&|\|\|)\b")] *)
Definition CONTROL_KEYWORDS : regex :=
  Seq Boundary
    (Seq (AnyOf "if" ["elif"; "for"; "while"; "and"; "or"; "case";
                      "except"; "catch"; "&&"; "||"])
         Boundary).

(** [re.compile(r"\bdef\s+\w+\s*\(")] *)
Definition pat_def : regex :=
  Seq Boundary (Seq (Str "def") (Seq (Plus CSpace) (Seq (Plus CWord)
    (Seq (Star CSpace) (Str "("))))).

(** [re.compile(r"\bfunction\s+\w+\s*\(")] *)
Definition pat_function : regex :=
  Seq Boundary (Seq (Str "function") (Seq (Plus CSpace) (Seq (Plus CWord)
    (Seq (Star CSpace) (Str "("))))).

(** [re.compile(r"\b\w+\s+\w+\s*\(.*\)\s*\{")] *)
Definition pat_clike : regex :=
  Seq Boundary (Seq (Plus CWord) (Seq (Plus CSpace) (Seq (Plus CWord)
    (Seq (Star CSpace) (Seq (Str "(") (Seq (Star CDot) (Seq (Str ")")
      (Seq (Star CSpace) (Str "{"))))))))).

Definition function_patterns : list regex :=
  [pat_def; pat_function; pat_clike].

(** [r"\b(TODO|FIXME)\b"] with [flags=re.IGNORECASE] *)
Definition pat_todo : regex :=
  Seq Boundary (Seq (Alt (StrI "TODO") (StrI "FIXME")) Boundary).

Definition comment_line_starts : list pystr := [lit "#"; lit "//"].

(** The test of the comment loop on one line. *)
Definition is_comment_line `{UnicodeDB} (ln : pystr) : bool :=
  let stripped := strip ln in
  existsb (fun prefix => startswith stripped prefix) comment_line_starts
  || contains stripped (lit "/*").

(** The pieces of [analyze_code], named as its local variables. *)
Definition non_empty_lines `{UnicodeDB} (code_text : pystr) : list pystr :=
  filter (fun ln => truthy (strip ln) = true) (splitlines code_text).

Definition num_comments `{UnicodeDB} (code_text : pystr) : nat :=
  fold_left (fun acc ln => if is_comment_line ln then S acc else acc)
    (splitlines code_text) 0%nat.

Definition num_functions `{UnicodeDB} (code_text : pystr) : nat :=
  fold_left (fun acc pat => (acc + length (findall pat code_text))%nat)
    function_patterns 0%nat.

Definition complexity_tokens `{UnicodeDB} (code_text : pystr) : list pystr :=
  findall CONTROL_KEYWORDS code_text.

Definition cyclomatic_complexity_estimate `{UnicodeDB}
    (code_text : pystr) : Q :=
  float_of_nat (length (complexity_tokens code_text)) + 1.

(** [sum(len(ln) for ln in non_empty_lines)] *)
Definition total_length (lns : list pystr) : nat :=
  fold_left (fun acc ln => (acc + length ln)%nat) lns 0%nat.

(** The average, as the exact quotient (the program's value is this
    quotient rounded to the nearest float). *)
Definition avg_line_length `{UnicodeDB} (code_text : pystr) : Q :=
  let lns := non_empty_lines code_text in
  match lns with
  | [] => 0
  | _ => float_of_nat (total_length lns) / float_of_nat (length lns)
  end.

Definition num_todos `{UnicodeDB} (code_text : pystr) : nat :=
  length (findall pat_todo code_text).

(** [analyze_code(code_text)]: the returned dictionary. *)
Definition analyze_code `{UnicodeDB} (code_text : pystr) : gmap string Q :=
  <["num_todos" := float_of_nat (num_todos code_text)]>
  (<["avg_line_length" := avg_line_length code_text]>
  (<["cyclomatic_complexity_estimate" :=
       cyclomatic_complexity_estimate code_text]>
  (<["num_functions" := float_of_nat (num_functions code_text)]>
  (<["num_comments" := float_of_nat (num_comments code_text)]>
  (<["loc" := float_of_nat (length (non_empty_lines code_text))]> ∅))))).

End StaticAnalysis.

(** ** [feature_extract.py] *)

Module FeatureExtract.
Import PyStr.

Definition FEATURE_COLUMNS : list string :=
  ["loc"; "num_comments"; "num_functions";
   "cyclomatic_complexity_estimate"; "avg_line_length"; "num_todos"].

(** A numeric [pandas.DataFrame]: the column labels and the rows, a cell
    being [None] where pandas would hold NaN for a missing value. *)
Record DataFrame : Type := {
  columns : list string;
  rows : list (list (option Q));
}.

(** [pd.DataFrame([row], columns=cols)] for a dictionary [row]. *)
Definition frame_of_row (row : gmap string Q) (cols : list string)
    : DataFrame :=
  {| columns := cols; rows := [map (fun name => row !! name) cols] |}.

(** [metrics_to_features(metrics)].  The values of [metrics] are floats,
    so [float(...)] leaves them as they are. *)
Definition metrics_to_features (metrics : gmap string Q) : DataFrame :=
  let row : gmap string Q :=
    list_to_map
      (map (fun name => (name, default 0%Q (metrics !! name)))
           FEATURE_COLUMNS) in
  frame_of_row row FEATURE_COLUMNS.

(** *** The model provider *)

(** What the numerical libraries contribute.  [numpy] and [scikit-learn]
    are not part of the repository.  A generator and a learner are given a
    seed or none ([None], the default of both libraries): without a seed
    they seed themselves from the entropy of the operating system, so
    that what they return depends on the state of the machine at the time
    of the call.  That state is the argument of type [N] below; the
    program cannot read it otherwise.  The two laws are the
    reproducibility the libraries document: with a seed, the state of the
    machine has no say. *)
Class Libraries : Type := {
  Forest : Type;
  (* np.random.default_rng(seed).normal(loc=0.0, scale=1.0, size=(n, k)) *)
  rng_normal : option Z -> N -> nat -> nat -> list (list Q);
  (* RandomForestClassifier(n_estimators=e, random_state=r).fit(X, y) *)
  rf_fit : nat -> option Z -> N -> list (list Q) -> list Z -> Forest;
  (* model.predict(x) on one feature vector *)
  rf_predict : Forest -> list Q -> Z;
  rng_normal_seeded : forall seed entropy entropy' n k,
    rng_normal (Some seed) entropy n k = rng_normal (Some seed) entropy' n k;
  rf_fit_seeded : forall e seed entropy entropy' X y,
    rf_fit e (Some seed) entropy X y = rf_fit e (Some seed) entropy' X y;
}.

(** Python objects, as far as the provider can tell them apart: a trained
    classifier, or something else a pickle may hold. *)
Inductive pyobj `{Libraries} : Type :=
| PyNone
| PyInt (z : Z)
| PyStr (s : pystr)
| PyClassifier (f : Forest).

(** [obj.predict(x)]; only a classifier has the method. *)
Definition predict `{Libraries} (o : pyobj) (x : list Q) : option Z :=
  match o with
  | PyClassifier f => Some (rf_predict f x)
  | _ => None
  end.

(** [pickle.load]: the object a byte string deserializes to, or [None]
    when deserialization raises an exception of the class [Exception]
    (the [UnpicklingError], [EOFError], [AttributeError], ... of a file
    that is no pickle of the running program).  A pickle may also run
    code that ends the interpreter or raises outside [Exception]
    ([SystemExit], [KeyboardInterrupt]); [load_or_train_model] does not
    catch that, and the call returns nothing.  The model has no outcome
    for it: [pickle_load c = None] reads "unpickling [c] raises an
    [Exception]", and what is stated about a call is stated about a call
    that returns. *)
Class Pickle `{Libraries} : Type := {
  pickle_load : list N -> option pyobj;
}.

(** [FEATURE_COLUMNS.index(name)] (every use in the source finds it). *)
Fixpoint index_of (name : string) (l : list string) : nat :=
  match l with
  | [] => 0
  | x :: l' => if String.eqb x name then 0 else S (index_of name l')
  end.

(** [X[:, j]] on one row. *)
Definition col (row : list Q) (j : nat) : Q := nth j row 0%Q.

(** The synthetic decision rule of [_train_fallback_model] on one row:
    complexity + 0.8 todos + 0.4 loc > 0.5. *)
Definition synthetic_label (row : list Q) : Z :=
  if Qlt_le_dec (1 # 2)
       (col row (index_of "cyclomatic_complexity_estimate" FEATURE_COLUMNS)
        + (4 # 5) * col row (index_of "num_todos" FEATURE_COLUMNS)
        + (2 # 5) * col row (index_of "loc" FEATURE_COLUMNS))
  then 1%Z else 0%Z.

(** The training set built by [_train_fallback_model], [X] and [y], on a
    machine in the state [entropy]: the generator is made with the seed
    42. *)
Definition synthetic_data `{Libraries} (entropy : N)
    : list (list Q) * list Z :=
  let n := 128%nat in
  let X := rng_normal (Some 42%Z) entropy n (length FEATURE_COLUMNS) in
  (X, map synthetic_label X).

(** [_train_fallback_model()], on a machine in the state [entropy]: the
    learner is made with [random_state=42]. *)
Definition _train_fallback_model `{Libraries} (entropy : N) : Forest :=
  rf_fit 100 (Some 42%Z) entropy
    (fst (synthetic_data entropy)) (snd (synthetic_data entropy)).

(** The file system as [load_or_train_model] sees it: at a path there is
    nothing, or something [open(path, 'rb')] fails on (a directory, a
    file without read permission), or a file that can be read. *)
Inductive node : Type :=
| Unopenable
| Readable (content : list N).

(** The provider has no state of its own.  To speak about how often it
    loads or trains, the model keeps a trace of these steps next to the
    file system; the trace is bookkeeping of the model, not a variable of
    the program, and no function below reads it. *)
Inductive event : Type :=
| EvUnpickle (path : pystr)     (* pickle.load ran on the file at path *)
| EvTrain (path : pystr).       (* the fallback was trained, for path *)

(** What a call finds: the file system, the trace, and the state of the
    machine an unseeded generator or learner would seed itself from. *)
Record world : Type := {
  fs : gmap pystr node;
  trace : list event;           (* the steps so far, oldest first *)
  entropy : N;
}.

Definition log (e : event) (w : world) : world :=
  {| fs := fs w; trace := trace w ++ [e]; entropy := entropy w |}.



(** [os.path.basename] (POSIX): what follows the last slash. *)
Fixpoint basename_from (cur : pystr) (p : pystr) : pystr :=
  match p with
  | [] => rev cur
  | c :: t => if c =? 47 then basename_from [] t
              else basename_from (c :: cur) t
  end.

Definition basename (p : pystr) : pystr := basename_from [] p.

Definition loaded_name (model_path : pystr) : pystr :=
  lit "Loaded saved model (" ++ basename model_path ++ lit ")".

Definition fallback_name : pystr := lit "Fallback RandomForest (synthetic)".

(** The fall-through part of [load_or_train_model]. *)
Definition train_fallback `{Libraries} (model_path : pystr) (w : world)
    : (pyobj * pystr) * world :=
  ((PyClassifier (_train_fallback_model (entropy w)), fallback_name),
   log (EvTrain model_path) w).

(** [load_or_train_model(model_path)].  An [Exception] raised inside the
    [try] (by [open], or by [pickle.load] as [pickle_load] tells) is
    swallowed and control falls through to the fallback. *)
Definition load_or_train_model `{Pickle} (model_path : pystr) (w : world)
    : (pyobj * pystr) * world :=
  match fs w !! model_path with
  | Some (Readable content) =>
      let w1 := log (EvUnpickle model_path) w in
      match pickle_load content with
      | Some model => ((model, loaded_name model_path), w1)
      | None => train_fallback model_path w1
      end
  | Some Unopenable => train_fallback model_path w
  | None => train_fallback model_path w
  end.

End FeatureExtract.

(** ** [promise_ingest.py] *)

Module PromiseIngest.
Import PyStr FeatureExtract.

(** The module reads [FEATURE_COLUMNS] from the [feature_extract] module
    next to it; the list is the one of [utils/feature_extract.py]. *)

Definition PROMISE_FILENAMES : list pystr :=
  [lit "cm1.csv"; lit "kc1.csv"; lit "kc2.csv"; lit "pc1.csv";
   lit "jm1.csv"].

(** A [float64]: a finite value, an infinity or NaN (which is also how
    pandas marks a missing value). *)
Inductive float : Type :=
| Fin (q : Q)
| PosInf
| NegInf
| NaN.

(** A cell of a frame as [pd.read_csv] yields it: the column was read as
    [bool], [int64], [float64], or kept as text. *)
Inductive cell : Type :=
| CBool (b : bool)
| CInt (z : Z)
| CFloat (x : float)
| CStr (s : pystr).

(** A frame read from a CSV file: its index, and its columns in order,
    each with its label and its cells (all of one length, the number of
    rows).  [pd.read_csv(path)] numbers the rows 0, 1, ... ([frame_index]
    is [None]), unless the rows of the file have one field more than its
    header: the first field of every row is then the label of the row
    ([frame_index] holds these labels, which need be neither numbers nor
    distinct). *)
Record RawFrame : Type := {
  frame_index : option (list cell);
  frame_columns : list (string * list cell);
}.

(** The frame of a file whose rows have as many fields as its header. *)
Definition numbered (cols : list (string * list cell)) : RawFrame :=
  {| frame_index := None; frame_columns := cols |}.

(** A row of a frame that pandas builds from columns with different
    indexes: the position its label has in the columns that carry the
    index of the source, and the position it has in the columns numbered
    0, 1, ..., each [None] when the label is not in that index. *)
Definition place : Type := option nat * option nat.

(** The conversions between text and numbers the interpreter provides
    ([None] where the conversion raises), [str.lower] on text that is
    not plain ASCII, and the way pandas aligns two indexes. *)
Class Conversions : Type := {
  str_of_int : Z -> pystr;                (* str(z) *)
  str_of_float : float -> pystr;          (* str(x) *)
  int_of_str : pystr -> option Z;         (* int(s), to an int64 *)
  float_of_str : pystr -> option float;   (* float(s) *)
  lower_beyond_ascii : pystr -> pystr;    (* s.lower(), s not ASCII *)
  (* the rows of the frame [pd.DataFrame({...})] builds from columns
     labelled [labels] and columns numbered 0 .. n-1, in the order pandas
     gives them, the two booleans telling whether [lOComment] and [n] are
     among the former; [None] where pandas refuses the labels (it does
     not reindex repeated ones) *)
  outer_join : list cell -> nat -> bool -> bool -> option (list place);
}.

(** What may go wrong while one source is mapped. *)
Inductive error : Type :=
| ValueError (msg : string)   (* raised by the function itself *)
| CastError                   (* raised by an [astype] conversion *)
| AlignError.                 (* raised while the frame is put together *)

Inductive result (A : Type) : Type :=
| Ok (a : A)
| Raise (e : error).
Arguments Ok {A} a.
Arguments Raise {A} e.

#[export] Instance result_bind : MBind result := fun A B f m =>
  match m with
  | Ok a => f a
  | Raise e => Raise e
  end.

(** A conversion applied to a whole column: it raises as soon as one cell
    cannot be converted. *)
Definition cast {A B : Type} (f : A -> option B) (column : list A)
    : result (list B) :=
  match mapM f column with
  | Some l => Ok l
  | None => Raise CastError
  end.

(** [name in df.columns], [df.get(name)] and [len(df)]. *)
Definition has_column (df : RawFrame) (name : string) : bool :=
  existsb (fun c => String.eqb (fst c) name) (frame_columns df).

Fixpoint get_column (cols : list (string * list cell)) (name : string)
    : option (list cell) :=
  match cols with
  | [] => None
  | (k, v) :: cols' =>
      if String.eqb k name then Some v else get_column cols' name
  end.

Definition get (df : RawFrame) (name : string) : option (list cell) :=
  get_column (frame_columns df) name.

Definition nrows (df : RawFrame) : nat :=
  match frame_index df with
  | Some labels => length labels
  | None =>
      match frame_columns df with
      | [] => 0
      | (_, v) :: _ => length v
      end
  end.

(** [s.lower()] *)
Definition ascii_lower (c : char) : char :=
  if in_range 65 90 c then c + 32 else c.

Definition lower `{Conversions} (s : pystr) : pystr :=
  if forallb is_ascii s then map ascii_lower s else lower_beyond_ascii s.

(** [str(x)] of a cell, as [astype(str)] applies it. *)
Definition cell_str `{Conversions} (c : cell) : pystr :=
  match c with
  | CBool true => lit "True"
  | CBool false => lit "False"
  | CInt z => str_of_int z
  | CFloat x => str_of_float x
  | CStr s => s
  end.

(** [.map({"true": 1, "false": 0})] on one value; [None] is NaN. *)
Definition label_map (s : pystr) : option Z :=
  if decide (s = lit "true") then Some 1%Z
  else if decide (s = lit "false") then Some 0%Z
  else None.

(** Truncation towards zero. *)
Definition Qtrunc (q : Q) : Z :=
  if Qlt_le_dec q 0 then Qceiling q else Qfloor q.

(** The least [int64], and the conversion of a finite [float64] to
    [int64]: the fraction is cut off, and a value that does not fit gives
    the least [int64] (what the conversion instruction of x86-64 answers;
    numpy passes it on). *)
Definition INT64_MIN : Z := (- 2 ^ 63)%Z.

Definition int64_of_float (q : Q) : Z :=
  let z := Qtrunc q in
  if ((INT64_MIN <=? z) && (z <? 2 ^ 63))%Z then z else INT64_MIN.

(** [astype(int)] on one cell ([int] is [int64]; a cell of an integer
    column is one already). *)
Definition cell_int `{Conversions} (c : cell) : option Z :=
  match c with
  | CBool b => Some (if b then 1 else 0)%Z
  | CInt z => Some z
  | CFloat (Fin q) => Some (int64_of_float q)
  | CFloat _ => None
  | CStr s => int_of_str s
  end.

(** [astype(float)] on one cell (an integer is taken for the float of its
    value, which it is up to 2^53 in size). *)
Definition cell_float `{Conversions} (c : cell) : option float :=
  match c with
  | CBool b => Some (Fin (if b then 1 else 0))
  | CInt z => Some (Fin (inject_Z z))
  | CFloat x => Some x
  | CStr s => float_of_str s
  end.

(** [.replace(0, 1)] on one cell: a numeric zero becomes one. *)
Definition replace_0_1 (c : cell) : cell :=
  match c with
  | CInt 0 => CInt 1
  | CFloat (Fin q) => if Qeq_bool q 0 then CFloat (Fin 1) else c
  | _ => c
  end.

(** Division of [float64] values (the sign of a zero is not tracked, and
    the quotient of two finite values is the exact one, which the
    program rounds to the nearest float). *)
Definition sign_inf (positive : bool) : float :=
  if positive then PosInf else NegInf.

Definition fdiv (x y : float) : float :=
  match x, y with
  | NaN, _ | _, NaN => NaN
  | Fin a, Fin b =>
      if Qeq_bool b 0
      then (if Qeq_bool a 0 then NaN else sign_inf (Qle_bool 0 a))
      else Fin (a / b)
  | Fin _, _ => Fin 0
  | PosInf, Fin b => sign_inf (Qle_bool 0 b)
  | NegInf, Fin b => sign_inf (negb (Qle_bool 0 b))
  | _, _ => NaN
  end.

(** A row of the mapped frame: the cells under [FEATURE_COLUMNS], in that
    order, and the cell under ["label"], which is [None] where the frame
    holds NaN for a label it has not got. *)
Record Row : Type := {
  features : list float;
  label : option Z;
}.

Definition Frame : Type := list Row.

(** One row of [pd.DataFrame({...})], read in the order
    [[*FEATURE_COLUMNS, "label"]]. *)
Definition build_row (loc lOComment v_g avg : float) (lbl : option Z)
    : Row :=
  let cells : gmap string float :=
    <["num_todos" := Fin 0]>
    (<["avg_line_length" := avg]>
    (<["cyclomatic_complexity_estimate" := v_g]>
    (<["num_functions" := Fin 0]>
    (<["num_comments" := lOComment]>
    (<["loc" := loc]> ∅))))) in
  {| features := map (fun name => default NaN (cells !! name))
                     FEATURE_COLUMNS;
     label := lbl |}.

(** A row that has its label. *)
Definition mk_row (loc lOComment v_g avg : float) (lbl : Z) : Row :=
  build_row loc lOComment v_g avg (Some lbl).

(** The cell of a column at a position, if the row has one there and
    the column is long enough; for a float, NaN otherwise. *)
Definition cell_at {A : Type} (column : list A) (p : option nat)
    : option A :=
  p ≫= (fun i => column !! i).

Definition float_at (column : list float) (p : option nat) : float :=
  default NaN (cell_at column p).

(** The rows of a frame all of whose columns share one index of [n]
    labels. *)
Definition in_step (n : nat) : list place :=
  map (fun i => (Some i, Some i)) (seq 0 n).

(** The rows of the frame [_map_promise_to_features] puts together.  The
    columns it takes from the source carry the index of the source; the
    defaults [pd.Series([0.0] * len(df_local))] for an absent [lOComment]
    or [n] are numbered 0 .. n-1.  Where the source is numbered so, or
    has both columns, all columns are in step; otherwise pandas aligns
    them by label. *)
Definition frame_layout `{Conversions} (df : RawFrame)
    : result (list place) :=
  match frame_index df with
  | None => Ok (in_step (nrows df))
  | Some labels =>
      if has_column df "lOComment" && has_column df "n"
      then Ok (in_step (nrows df))
      else match outer_join labels (nrows df)
                   (has_column df "lOComment") (has_column df "n") with
           | Some places => Ok places
           | None => Raise AlignError
           end
  end.

(** The label column as the first statement of
    [_map_promise_to_features] leaves it in [df_local["label"]];
    a cell is [None] where [.map] found no entry (NaN). *)
Definition resolve_label `{Conversions} (df : RawFrame)
    : result (list (option Z)) :=
  match get df "defects" with
  | Some defects =>
      Ok (map (fun c => label_map (lower (cell_str c))) defects)
  | None =>
      match get df "label" with
      | Some lbl => l ← cast cell_int lbl; Ok (map Some l)
      | None =>
          Raise (ValueError
                   "PROMISE dataset missing 'defects' or 'label' column")
      end
  end.

(** The first present column among the given aliases. *)
Fixpoint first_present (df : RawFrame) (aliases : list string)
    : option (list cell) :=
  match aliases with
  | [] => None
  | a :: rest =>
      match get df a with
      | Some column => Some column
      | None => first_present df rest
      end
  end.

Definition require {A : Type} (o : option A) (msg : string) : result A :=
  match o with
  | Some a => Ok a
  | None => Raise (ValueError msg)
  end.

(** The row of the mapped frame at a place: [loc], [v(g)] and the label
    are columns of the source; [lOComment] and [n] are, or are the
    numbered defaults; [avg_line_length] is the quotient of [n] and the
    [loc] without zeros, NaN where either is missing. *)
Definition mapped_row (df : RawFrame)
    (n_f loc_1 loc_f lOComment_f v_g_f : list float) (lbl : list Z)
    (p : place) : Row :=
  let own := fst p in
  let side (name : string) :=
    if has_column df name then own else snd p in
  build_row (float_at loc_f own)
    (float_at lOComment_f (side "lOComment"))
    (float_at v_g_f own)
    (fdiv (float_at n_f (side "n")) (float_at loc_1 own))
    (cell_at lbl own).

(** [_map_promise_to_features(df)] *)
Definition _map_promise_to_features `{Conversions} (df : RawFrame)
    : result Frame :=
  label_col ← resolve_label df;
  loc ← require (first_present df ["loc"; "lOCode"; "locCodeAndComment"])
           "PROMISE dataset missing a loc column (e.g., 'loc')";
  v_g ← require (first_present df ["v(g)"; "branchCount"])
           "PROMISE dataset missing complexity column 'v(g)' or 'branchCount'";
  let zeros := replicate (nrows df) (CFloat (Fin 0)) in
  let lOComment := default zeros (get df "lOComment") in
  let n_total := default zeros (get df "n") in
  n_f ← cast cell_float n_total;
  loc_1 ← cast cell_float (map replace_0_1 loc);
  (* the quotient [avg_line_length] is taken row by row, in [mapped_row] *)
  loc_f ← cast cell_float loc;
  lOComment_f ← cast cell_float lOComment;
  v_g_f ← cast cell_float v_g;
  lbl ← cast id label_col;
  places ← frame_layout df;
  Ok (map (mapped_row df n_f loc_1 loc_f lOComment_f v_g_f lbl) places).

(** What [pd.read_csv(path)] makes of an existing file: it raises, or it
    returns a frame. *)
Inductive csvfile : Type :=
| Unparsable
| Parsed (df : RawFrame).

(** [os.path.join(base_dir, name)] (POSIX) for a relative [name]. *)
Definition path_join (base_dir name : pystr) : pystr :=
  match last base_dir with
  | None => name
  | Some c => if c =? 47 then base_dir ++ name
              else base_dir ++ lit "/" ++ name
  end.

(** One round of the loop of [load_promise_datasets]: the mapped frame of
    the source, or [None] when the file is absent or anything raised. *)
Definition load_source `{Conversions} (files : gmap pystr csvfile)
    (base_dir name : pystr) : option Frame :=
  match files !! path_join base_dir name with
  | None => None
  | Some Unparsable => None
  | Some (Parsed df_raw) =>
      match _map_promise_to_features df_raw with
      | Ok df_mapped => Some df_mapped
      | Raise _ => None
      end
  end.

Definition is_nan (x : float) : bool :=
  match x with NaN => true | _ => false end.

(** [.dropna()]: the rows without a missing value. *)
Definition complete (r : Row) : bool :=
  forallb (fun x => negb (is_nan x)) (features r)
  && match label r with Some _ => true | None => false end.

Definition dropna (df : Frame) : Frame :=
  filter (fun r => complete r = true) df.

(** [load_promise_datasets(base_dir)]; the result [None] is Python's
    [None]. *)
Definition load_promise_datasets `{Conversions}
    (files : gmap pystr csvfile) (base_dir : pystr) : option Frame :=
  let dataframes :=
    omap (load_source files base_dir) PROMISE_FILENAMES in
  match dataframes with
  | [] => None
  | _ => Some (dropna (concat dataframes))
  end.

(** The sources of a batch that are there but could not be ingested. *)
Definition source_failed `{Conversions} (files : gmap pystr csvfile)
    (base_dir name : pystr) : bool :=
  match files !! path_join base_dir name, load_source files base_dir name with
  | Some _, None => true
  | _, _ => false
  end.

Definition failed_sources `{Conversions} (files : gmap pystr csvfile)
    (base_dir : pystr) : list pystr :=
  filter (fun name => source_failed files base_dir name = true)
    PROMISE_FILENAMES.

End PromiseIngest.

(** ** Inputs and small instances of the library interfaces, for worked
    examples *)

Module Sample.
Import PyStr FeatureExtract PromiseIngest.

(** A stand-in for the numerical libraries: a generator that fills the
    matrix with its seed, and a learner that remembers how many positive
    labels it saw, and its seed, and predicts the majority.  Without a
    seed both take the state of the machine for one. *)
Definition effective_seed (seed : option Z) (entropy : N) : Z :=
  match seed with
  | Some z => z
  | None => Z.of_N entropy
  end.

#[export] Instance libraries : Libraries := {|
  Forest := (Z * Z) * Z;
  rng_normal := fun seed entropy n k =>
    replicate n (replicate k (inject_Z (effective_seed seed entropy)));
  rf_fit := fun _ seed entropy X y =>
    ((Z.of_nat (length (filter (fun l => l = 1%Z) y)), Z.of_nat (length y)),
     effective_seed seed entropy);
  rf_predict := fun f _ =>
    if (snd (fst f) <? 2 * fst (fst f))%Z then 1%Z else 0%Z;
  rng_normal_seeded := fun _ _ _ _ _ => eq_refl;
  rf_fit_seeded := fun _ _ _ _ _ _ => eq_refl;
|}.

(** The two-byte pickle [N.] holds [None]; nothing else is understood. *)
#[export] Instance pickle : Pickle := {|
  pickle_load := fun content =>
    if decide (content = [78; 46]) then Some PyNone else None;
|}.

(** The alignment of distinct integer labels with the numbers 0 .. n-1:
    the labels of both in increasing order, which is how pandas orders
    the union of two integer indexes, each with its position in the
    labelled and in the numbered columns. *)
Definition int_label (c : cell) : option Z :=
  match c with
  | CInt z => Some z
  | _ => None
  end.

Definition position_in (labels : list Z) (key : Z) : option nat :=
  fst <$> list_find (fun l => l = key) labels.

Definition join_int_labels (labels : list Z) (n : nat) : list place :=
  let numbers := map Z.of_nat (seq 0 n) in
  map (fun key => (position_in labels key, position_in numbers key))
    (merge_sort Z.le (remove_dups (labels ++ numbers))).

(** A stand-in for the interpreter's conversions, to close statements
    that quantify over them; the worked examples use cells that need no
    conversion of text, so these are never consulted.  Labels are
    aligned when they are distinct integers, and refused otherwise. *)
#[export] Instance conversions : Conversions := {|
  str_of_int := fun _ => lit "0";
  str_of_float := fun _ => lit "nan";
  int_of_str := fun _ => None;
  float_of_str := fun _ => None;
  lower_beyond_ascii := fun s => s;
  outer_join := fun labels n _ _ =>
    match mapM int_label labels with
    | Some zs =>
        if bool_decide (NoDup zs) then Some (join_int_labels zs n) else None
    | None => None
    end;
|}.

(** The text of the specification's scenario, and its four lines. *)
Definition scenario_text : list N :=
  lit "def foo():" ++ [10] ++ lit "    # comment" ++ [10]
  ++ lit "    if x and y:" ++ [10] ++ lit "        pass" ++ [10].

Definition scenario_lines : list (list N) :=
  [lit "def foo():"; lit "    # comment"; lit "    if x and y:";
   lit "        pass"].

Definition model_path : list N := lit "model/defect_model.pkl".

(** A machine without a pretrained artifact, and one on which the
    artifact is the pickle of [None]. *)
Definition fresh_machine : world :=
  {| fs := ∅; trace := []; entropy := 2024 |}.

Definition odd_machine : world :=
  {| fs := {[ model_path := Readable [78; 46] ]}; trace := [];
     entropy := 2024 |}.

(** The machine without the artifact at another time. *)
Definition fresh_machine_later : world :=
  {| fs := ∅; trace := []; entropy := 7 |}.

(** A two-row PROMISE source. *)
Definition two_rows : RawFrame := numbered
  [("loc", [CInt 10; CInt 0]);
   ("v(g)", [CInt 2; CInt 1]);
   ("defects", [CStr (lit "True"); CStr (lit "false")])].

(** The same rows with an integer label instead. *)
Definition two_rows_label : RawFrame := numbered
  [("loc", [CInt 10; CInt 0]);
   ("v(g)", [CInt 2; CInt 1]);
   ("label", [CInt 1; CInt 0])].

(** A source without any label column. *)
Definition no_label : RawFrame := numbered
  [("loc", [CInt 10; CInt 0]); ("v(g)", [CInt 2; CInt 1])].

(** A source without any of the [loc] columns. *)
Definition no_loc : RawFrame := numbered
  [("v(g)", [CInt 2]); ("defects", [CBool true])].

Definition data_dir : list N := lit "datasets".

(** Batches of dataset files. *)
Definition empty_batch : gmap (list N) csvfile := ∅.

Definition broken_batch : gmap (list N) csvfile :=
  {[ lit "datasets/cm1.csv" := Unparsable ]}.

Definition mixed_batch : gmap (list N) csvfile :=
  {[ lit "datasets/cm1.csv" := Parsed no_loc;
     lit "datasets/kc1.csv" := Parsed two_rows ]}.

End Sample.

(** ** How much text a match takes *)

Module Extent.
Import PyStr Re.

(** The least number of characters a match of the pattern reads. *)
Fixpoint min_len (r : regex) : nat :=
  match r with
  | Chr _ => 1
  | Boundary => 0
  | Seq r1 r2 => min_len r1 + min_len r2
  | Alt r1 r2 => Nat.min (min_len r1) (min_len r2)
  | Star _ => 0
  end.

End Extent.

(** ** More inputs for worked examples *)

Module Inputs.
Import PyStr.

(** A database in which no code point beyond ASCII is a space, a letter or
    a digit, or has another case. *)
#[export] Instance plain_ascii : UnicodeDB := {|
  uni_isspace := fun _ => false;
  uni_isalnum := fun _ => false;
  uni_tolower := fun c => c;
|}.

(** Two lines of punctuation and blanks. *)
Definition punctuation_text : list N :=
  lit "  {} && || ;" ++ [10] ++ lit "  // ?!".

End Inputs.

(** ** Well-formed frames and further sample sources *)

Module Frames.
Import PyStr FeatureExtract PromiseIngest.

(** All columns of a frame have as many cells as the frame has rows (what
    [pd.read_csv] always delivers). *)
Definition well_formed (df : RawFrame) : Prop :=
  Forall (fun column => length (snd column) = nrows df) (frame_columns df).

(** All columns the mapping puts in its frame carry one index: the rows
    of the source are numbered 0, 1, ..., or the source has both [lOComment]
    and [n], so that no numbered default is used. *)
Definition in_step_with_source (df : RawFrame) : Prop :=
  frame_index df = None
  \/ (has_column df "lOComment" = true /\ has_column df "n" = true).

(** The rows of [Sample.two_rows] in a file whose rows carry labels of
    their own, 7 and 8. *)
Definition labelled_rows : RawFrame :=
  {| frame_index := Some [CInt 7; CInt 8];
     frame_columns := frame_columns Sample.two_rows |}.

(** The same with the two optional columns. *)
Definition labelled_full_rows : RawFrame :=
  {| frame_index := Some [CInt 7; CInt 8];
     frame_columns :=
       [("loc", [CInt 10; CInt 0]);
        ("v(g)", [CInt 2; CInt 1]);
        ("lOComment", [CInt 3; CInt 0]);
        ("n", [CInt 50; CInt 7]);
        ("defects", [CBool true; CBool false])] |}.

(** A source with Halstead's [n], one of its modules having no code line. *)
Definition halstead_rows : RawFrame := numbered
  [("loc", [CInt 10; CInt 0]);
   ("v(g)", [CInt 2; CInt 1]);
   ("n", [CInt 50; CInt 7]);
   ("defects", [CBool true; CBool false])].

(** A source one of whose [defects] values is neither true nor false. *)
Definition yes_no_rows : RawFrame := numbered
  [("loc", [CInt 10; CInt 3]);
   ("v(g)", [CInt 2; CInt 1]);
   ("defects", [CStr (lit "false"); CStr (lit "yes")])].

Definition yes_no_batch : gmap (list N) csvfile :=
  {[ lit "datasets/pc1.csv" := Parsed yes_no_rows ]}.

End Frames.

(** ** Reading an upload ([app.py], [streamlit_app.py]) *)

Module Upload.
Import PyStr StaticAnalysis.

(** An uploaded file is a byte stream with a read position (werkzeug's
    [FileStorage] over its stream, Streamlit's [UploadedFile], an
    [io.BytesIO]).  A byte is a number below 256. *)
Record stream : Type := {
  data : list N;
  pos : nat;
}.

(** What is left to read. *)
Definition remaining (f : stream) : list N := drop (pos f) (data f).

(** [f.read()]: everything from the position on; the position moves to the
    end. *)
Definition read (f : stream) : list N * stream :=
  (remaining f,
   {| data := data f; pos := Nat.max (pos f) (length (data f)) |}).

(** A fresh upload. *)
Definition upload (raw : list N) : stream := {| data := raw; pos := 0 |}.

(** [raw.decode("utf-8")], strict: [None] stands for [UnicodeDecodeError].
    Well-formed sequences are those of the Unicode standard: no overlong
    form, no surrogate, nothing above U+10FFFF. *)
Definition is_cont (b : N) : bool := in_range 128 191 b.

Definition second_ok (b0 b1 : N) : bool :=
  in_range (if b0 =? 224 then 160 else if b0 =? 240 then 144 else 128)
           (if b0 =? 237 then 159 else if b0 =? 244 then 143 else 191)
           b1.

Fixpoint utf8_decode (raw : list N) : option (list N) :=
  match raw with
  | [] => Some []
  | b0 :: t0 =>
      if b0 <? 128 then cons b0 <$> utf8_decode t0
      else if in_range 194 223 b0 then
        match t0 with
        | b1 :: t1 =>
            if is_cont b1
            then cons ((b0 - 192) * 64 + (b1 - 128)) <$> utf8_decode t1
            else None
        | _ => None
        end
      else if in_range 224 239 b0 then
        match t0 with
        | b1 :: b2 :: t2 =>
            if second_ok b0 b1 && is_cont b2
            then cons ((b0 - 224) * 4096 + (b1 - 128) * 64 + (b2 - 128))
                   <$> utf8_decode t2
            else None
        | _ => None
        end
      else if in_range 240 244 b0 then
        match t0 with
        | b1 :: b2 :: b3 :: t3 =>
            if second_ok b0 b1 && is_cont b2 && is_cont b3
            then cons ((b0 - 240) * 262144 + (b1 - 128) * 4096
                       + (b2 - 128) * 64 + (b3 - 128))
                   <$> utf8_decode t3
            else None
        | _ => None
        end
      else None
  end.

(** [raw.decode("latin-1", errors="ignore")]: every byte is the code point
    of the same number; there is nothing to ignore. *)
Definition latin1_decode (raw : list N) : list N := raw.

(** [_read_file_storage_to_text(file_storage)] of the Flask application:
    the text, and the stream as the call leaves it. *)
Definition _read_file_storage_to_text (file_storage : stream)
    : list N * stream :=
  let (raw, f1) := read file_storage in
  match utf8_decode raw with
  | Some text => (text, f1)
  | None => (latin1_decode raw, f1)
  end.

(** The same step in [streamlit_app.py], where the handler of
    [UnicodeDecodeError] reads the file again:
    [try: str(f.read(), "utf-8")
     except UnicodeDecodeError: str(f.read(), "latin-1", errors="ignore")]. *)
Definition read_code_text (uploaded_file : stream) : list N * stream :=
  let (raw, f1) := read uploaded_file in
  match utf8_decode raw with
  | Some text => (text, f1)
  | None =>
      let (raw', f2) := read f1 in
      (latin1_decode raw', f2)
  end.

End Upload.

(** ** The request handler of [app.py] *)

Module WebApp.
Import PyStr StaticAnalysis FeatureExtract Upload.

(** A request as [index] looks at it: its method and, for a POST, the
    entry ['codefile'] of [request.files] (a file name and a stream), if
    there is one. *)
Inductive request : Type :=
| GET
| POST (codefile : option (list N * stream)).

(** The dictionary handed to the template ([metrics_json] is the JSON
    text of the metrics; the dictionary itself is kept here). *)
Record analysis : Type := {
  is_defective : bool;
  metrics_json : gmap string Q;
  model_name : list N;
}.

(** What becomes of the request: the page is rendered with [result], or an
    exception leaves the handler. *)
Inductive response : Type :=
| Rendered (result : option analysis)
| Failed.

(** [model.predict(X)[0]] for a frame [X].  (A frame with a missing cell
    would be refused; those built by [metrics_to_features] have none.) *)
Definition predict_first `{Libraries} (model : pyobj) (X : DataFrame)
    : option Z :=
  match rows X with
  | row :: _ =>
      match mapM id row with
      | Some x => predict model x
      | None => None
      end
  | [] => None
  end.

(** [index()], with [model_path] for the path it computes from
    [__file__]. *)
Definition index `{UnicodeDB} `{Pickle} (req : request)
    (model_path : list N) (w : world) : response * world :=
  match req with
  | POST (Some (filename, uploaded)) =>
      if truthy filename then
        let code_text := fst (_read_file_storage_to_text uploaded) in
        let metrics := analyze_code code_text in
        let X := metrics_to_features metrics in
        let '((model, name), w1) := load_or_train_model model_path w in
        match predict_first model X with
        | Some y_pred =>
            (Rendered (Some {| is_defective := negb (y_pred =? 0)%Z;
                               metrics_json := metrics;
                               model_name := name |}), w1)
        | None => (Failed, w1)
        end
      else (Rendered None, w)
  | _ => (Rendered None, w)
  end.

(** The feature vector the handler passes to the model. *)
Definition feature_vector `{UnicodeDB} (code_text : list N) : list Q :=
  map (fun name => default 0%Q (analyze_code code_text !! name))
    FEATURE_COLUMNS.

End WebApp.

(** ** [ml_defect_detection.py]: choosing the target and the best model *)

Module Detector.

Definition possible_targets : list string :=
  ["label"; "defects"; "defect"; "target"; "class"; "bug"].

(** [detect_target_column]: [target_column] is the attribute set by the
    constructor, [columns] is [df.columns]; [None] stands for the
    [IndexError] of [df.columns[-1]] on a frame without columns. *)
Definition detect_target_column (target_column : option string)
    (columns : list string) : option string :=
  match List.find (fun col => bool_decide (col ∈ columns))
          possible_targets with
  | Some col => Some col
  | None =>
      match target_column with
      | None => last columns
      | Some given => Some given
      end
  end.

(** The scores [train_and_evaluate] stores for a model. *)
Record scores : Type := {
  accuracy : Q;
  precision : Q;
  recall : Q;
  f1_score : Q;
}.

(** The attributes of the detector the training loop works on
    ([best_model] goes with [best_model_name]). *)
Record detector : Type := {
  results : gmap string scores;
  best_score : Q;
  best_model_name : option string;
}.

(** The detector as [__init__] leaves it. *)
Definition fresh : detector :=
  {| results := ∅; best_score := 0; best_model_name := None |}.

(** One round of the loop of [train_and_evaluate]: [outcome] is what
    fitting and scoring the model gave, [None] when anything raised (the
    round is then skipped). *)
Definition evaluate_one (d : detector) (entry : string * option scores)
    : detector :=
  match snd entry with
  | Some sc =>
      let d1 := {| results := <[fst entry := sc]> (results d);
                   best_score := best_score d;
                   best_model_name := best_model_name d |} in
      if Qlt_le_dec (best_score d) (f1_score sc)
      then {| results := results d1;
              best_score := f1_score sc;
              best_model_name := Some (fst entry) |}
      else d1
  | None => d
  end.

(** [train_and_evaluate]: the results are reset, the best model so far is
    not; [models] lists [self.models.items()] in order, each with the
    outcome of its round. *)
Definition train_and_evaluate (models : list (string * option scores))
    (d : detector) : detector :=
  fold_left evaluate_one models
    {| results := ∅;
       best_score := best_score d;
       best_model_name := best_model_name d |}.

(** What [save_best_model] does with the detector: nothing when there is
    no best model, otherwise it looks the best model's scores up ([None]
    inside stands for the [KeyError]) and writes them out. *)
Definition saved_scores (d : detector) : option (option scores) :=
  match best_model_name d with
  | None => None
  | Some name => Some (results d !! name)
  end.

(** What holds of the detector after the rounds [done], when the loop
    started on a fresh detector. *)
Record loop_invariant (done : list (string * option scores))
    (d : detector) : Prop := {
  inv_results : forall name sc,
    results d !! name = Some sc <-> (name, Some sc) ∈ done;
  inv_upper : forall name sc,
    (name, Some sc) ∈ done -> (f1_score sc <= best_score d)%Q;
  inv_nonneg : (0 <= best_score d)%Q;
  inv_none : best_model_name d = None -> best_score d = 0%Q;
  inv_best : forall b,
    best_model_name d = Some b ->
    exists j scb,
      done !! j = Some (b, Some scb)
      /\ best_score d = f1_score scb
      /\ (0 < f1_score scb)%Q
      /\ forall i name sc,
           (i < j)%nat -> done !! i = Some (name, Some sc) ->
           (f1_score sc < f1_score scb)%Q;
}.

End Detector.

(** ** Inputs for the worked instances of Part III *)

Module MoreInputs.
Import PyStr FeatureExtract PromiseIngest Upload Detector.

(** The frame [Sample.two_rows] is mapped to. *)
Definition two_rows_mapped : Frame :=
  [mk_row (Fin (inject_Z 10)) (Fin 0) (Fin (inject_Z 2))
     (Fin (0 / inject_Z 10)) 1;
   mk_row (Fin (inject_Z 0)) (Fin 0) (Fin (inject_Z 1))
     (Fin (0 / inject_Z 1)) 0].

(** The frame [Frames.halstead_rows] is mapped to. *)
Definition halstead_mapped : Frame :=
  [mk_row (Fin (inject_Z 10)) (Fin 0) (Fin (inject_Z 2))
     (Fin (inject_Z 50 / inject_Z 10)) 1;
   mk_row (Fin (inject_Z 0)) (Fin 0) (Fin (inject_Z 1))
     (Fin (inject_Z 7 / inject_Z 1)) 0].

(** The frame [Frames.labelled_full_rows] is mapped to. *)
Definition labelled_full_mapped : Frame :=
  [mk_row (Fin (inject_Z 10)) (Fin (inject_Z 3)) (Fin (inject_Z 2))
     (Fin (inject_Z 50 / inject_Z 10)) 1;
   mk_row (Fin (inject_Z 0)) (Fin (inject_Z 0)) (Fin (inject_Z 1))
     (Fin (inject_Z 7 / inject_Z 1)) 0].

(** The bytes of "café" in Latin-1: no valid UTF-8. *)
Definition cafe_latin1 : list N := [99; 97; 102; 233].

(** The outcome of four rounds of training; one of them raised. *)
Definition score (f1 : Q) : scores :=
  {| accuracy := f1; precision := f1; recall := f1; f1_score := f1 |}.

Definition four_rounds : list (string * option scores) :=
  [("Logistic Regression", Some (score (4 # 5)));
   ("Naive Bayes", None);
   ("KNN", Some (score (4 # 5)));
   ("Decision Tree", Some (score (1 # 2)))].

End MoreInputs.

(* ===================================================================== *)
(** * Part II.  Properties                                                *)
(* ===================================================================== *)

Import PyStr Re StaticAnalysis FeatureExtract.

(** ** The metric extractor *)

Section Extractor.
Context `{db : UnicodeDB}.

(** Counting with an accumulator, as the comment loop does. *)
Lemma count_loop_filter {A : Type} (p : A -> bool) (l : list A) (a : nat) :
  fold_left (fun acc x => if p x then S acc else acc) l a
  = (a + length (filter (fun x => p x = true) l))%nat.
Proof.
  revert a. induction l as [|x l IH]; intros a; simpl.
  - lia.
  - rewrite IH, filter_cons. destruct (p x) eqn:Hp.
    + rewrite decide_True by reflexivity. simpl. lia.
    + rewrite decide_False by discriminate. reflexivity.
Qed.

Lemma filter_length_mono {A : Type} (p q : A -> bool) (l : list A) :
  (forall x, p x = true -> q x = true) ->
  (length (filter (fun x => p x = true) l)
   <= length (filter (fun x => q x = true) l))%nat.
Proof.
  intros Hpq. induction l as [|x l IH]; simpl; [lia|].
  rewrite !filter_cons.
  destruct (p x) eqn:Hp.
  - rewrite (Hpq _ Hp). rewrite !decide_True by reflexivity. simpl. lia.
  - rewrite decide_False by discriminate.
    destruct (decide (q x = true)); simpl; lia.
Qed.

(** A line counted as a comment has something left after trimming. *)
Lemma comment_line_non_empty (ln : list N) :
  is_comment_line ln = true -> truthy (strip ln) = true.
Proof.
  unfold is_comment_line. destruct (strip ln) as [|c s]; [|reflexivity].
  vm_compute. discriminate.
Qed.

Lemma num_comments_le_loc (code_text : list N) :
  (num_comments code_text <= length (non_empty_lines code_text))%nat.
Proof.
  unfold num_comments, non_empty_lines.
  rewrite count_loop_filter. simpl.
  apply (filter_length_mono is_comment_line (fun ln => truthy (strip ln))).
  apply comment_line_non_empty.
Qed.

Lemma float_of_nat_nonneg (n : nat) : (0 <= float_of_nat n)%Q.
Proof.
  unfold float_of_nat, Qle. simpl. lia.
Qed.

Lemma float_of_nat_le (n m : nat) :
  (n <= m)%nat -> (float_of_nat n <= float_of_nat m)%Q.
Proof.
  intros Hnm. unfold float_of_nat, Qle. simpl. lia.
Qed.

(** Trimming the empty string leaves it empty. *)
Lemma truthy_strip_length (ln : list N) :
  truthy (strip ln) = true -> (1 <= length ln)%nat.
Proof.
  destruct ln as [|c s]; [vm_compute; discriminate | simpl; lia].
Qed.

Lemma total_length_from (lns : list (list N)) (a : nat) :
  fold_left (fun acc ln => (acc + length ln)%nat) lns a
  = (a + total_length lns)%nat.
Proof.
  unfold total_length. revert a.
  induction lns as [|ln lns IH]; intros a; simpl; [lia|].
  rewrite IH, (IH (length ln)). lia.
Qed.

Lemma total_length_lower (lns : list (list N)) :
  Forall (fun ln => truthy (strip ln) = true) lns ->
  (length lns <= total_length lns)%nat.
Proof.
  induction 1 as [|ln lns Hln _ IH]; [unfold total_length; simpl; lia|].
  unfold total_length in *. simpl.
  rewrite total_length_from. unfold total_length.
  apply truthy_strip_length in Hln. lia.
Qed.

Lemma non_empty_lines_truthy (code_text : list N) :
  Forall (fun ln => truthy (strip ln) = true) (non_empty_lines code_text).
Proof.
  unfold non_empty_lines. apply Forall_forall. intros ln Hin.
  apply list_elem_of_filter in Hin. tauto.
Qed.

(** A quotient of two positive counts is positive. *)
Lemma float_div_pos (t n : nat) :
  (1 <= t)%nat -> (1 <= n)%nat ->
  (0 < float_of_nat t / float_of_nat n)%Q.
Proof.
  intros Ht Hn. apply Qlt_shift_div_l.
  - unfold float_of_nat, Qlt. simpl. lia.
  - rewrite Qmult_0_l. unfold float_of_nat, Qlt. simpl. lia.
Qed.

Lemma avg_line_length_cases (code_text : list N) :
  (non_empty_lines code_text = [] /\ avg_line_length code_text = 0%Q)
  \/ (non_empty_lines code_text <> [] /\ (0 < avg_line_length code_text)%Q).
Proof.
  unfold avg_line_length.
  pose proof (non_empty_lines_truthy code_text) as Hall.
  destruct (non_empty_lines code_text) as [|ln lns] eqn:E.
  - left. split; reflexivity.
  - right. split; [discriminate|].
    pose proof (total_length_lower _ Hall) as Hlow.
    apply float_div_pos; simpl in *; lia.
Qed.

Lemma non_empty_lines_nil (code_text : list N) :
  non_empty_lines code_text = [] <->
  (forall ln, ln ∈ splitlines code_text -> strip ln = []).
Proof.
  unfold non_empty_lines. split.
  - intros Hnil ln Hin.
    destruct (strip ln) as [|c s] eqn:E; [reflexivity|].
    assert (ln ∈ filter (fun ln => truthy (strip ln) = true)
                   (splitlines code_text)) as Hf.
    { apply list_elem_of_filter. split; [|exact Hin]. rewrite E. reflexivity. }
    rewrite Hnil in Hf. inversion Hf.
  - intros Hall.
    destruct (filter _ (splitlines code_text)) as [|ln lns] eqn:E;
      [reflexivity|].
    assert (ln ∈ filter (fun ln => truthy (strip ln) = true)
                   (splitlines code_text)) as Hf.
    { rewrite E. left. }
    apply list_elem_of_filter in Hf. destruct Hf as [Ht Hin].
    rewrite (Hall _ Hin) in Ht. discriminate.
Qed.

(** The keys of the returned dictionary. *)
Lemma analyze_code_dom (code_text : list N) :
  dom (analyze_code code_text) = list_to_set FEATURE_COLUMNS.
Proof.
  unfold analyze_code. rewrite !dom_insert_L, dom_empty_L.
  unfold FEATURE_COLUMNS. simpl. set_solver.
Qed.

Lemma analyze_code_nonneg (code_text : list N) :
  map_Forall (fun _ v => (0 <= v)%Q) (analyze_code code_text).
Proof.
  unfold analyze_code.
  repeat apply map_Forall_insert_2; try apply float_of_nat_nonneg.
  - destruct (avg_line_length_cases code_text) as [[_ ->]|[_ Hpos]].
    + apply Qle_refl.
    + apply Qlt_le_weak, Hpos.
  - unfold cyclomatic_complexity_estimate.
    apply (Qle_trans _ (0 + 1)); [discriminate|].
    apply Qplus_le_l, float_of_nat_nonneg.
  - apply map_Forall_empty.
Qed.

Lemma analyze_code_avg (code_text : list N) :
  analyze_code code_text !! "avg_line_length"
  = Some (avg_line_length code_text).
Proof. reflexivity. Qed.

End Extractor.

(** C1.  For every text, [analyze_code] returns a dictionary (the function
    is total, so no input makes it raise) whose keys are exactly the six of
    the schema, whose values are all non-negative, and in which
    [avg_line_length] is zero exactly when no line of the input has anything
    left after trimming. *)
Theorem analyze_code_schema_nonneg_avg (db : UnicodeDB) (code_text : list N) :
  dom (analyze_code code_text) = list_to_set FEATURE_COLUMNS
  /\ size (analyze_code code_text) = 6%nat
  /\ (forall key v, analyze_code code_text !! key = Some v -> (0 <= v)%Q)
  /\ exists avg,
       analyze_code code_text !! "avg_line_length" = Some avg
       /\ (avg == 0 <->
           forall ln, ln ∈ splitlines code_text -> truthy (strip ln) = false).
Proof.
  split; [apply analyze_code_dom|].
  split.
  { rewrite <- size_dom, analyze_code_dom. reflexivity. }
  split.
  { intros key v Hkv. exact (analyze_code_nonneg code_text key v Hkv). }
  exists (avg_line_length code_text). split; [apply analyze_code_avg|].
  assert (forall ln : list N, truthy (strip ln) = false <-> strip ln = [])
    as Htr.
  { intros ln. destruct (strip ln); simpl; split; congruence. }
  destruct (avg_line_length_cases code_text) as [[Hnil ->]|[Hne Hpos]].
  - split; [|reflexivity]. intros _ ln Hin.
    apply Htr. apply (proj1 (non_empty_lines_nil code_text) Hnil ln Hin).
  - split.
    + intros Hz. rewrite Hz in Hpos. discriminate.
    + intros Hall. exfalso. apply Hne.
      apply non_empty_lines_nil. intros ln Hin. apply Htr, Hall, Hin.
Qed.

(** C8.  For every text, the [num_comments] value of the dictionary is at
    most its [loc] value: a line counted as a comment (its trimmed content
    starts with [#] or [//], or contains [/*]) has non-empty trimmed
    content, so it is among the lines [loc] counts. *)
Theorem analyze_code_comments_le_loc (db : UnicodeDB) (code_text : list N) :
  (forall ln, is_comment_line ln = true -> strip ln <> [])
  /\ exists c l,
       analyze_code code_text !! "num_comments" = Some c
       /\ analyze_code code_text !! "loc" = Some l
       /\ (c <= l)%Q.
Proof.
  split.
  - intros ln Hc Hnil. apply comment_line_non_empty in Hc.
    rewrite Hnil in Hc. discriminate.
  - exists (float_of_nat (num_comments code_text)),
           (float_of_nat (length (non_empty_lines code_text))).
    split; [reflexivity|]. split; [reflexivity|].
    apply float_of_nat_le, num_comments_le_loc.
Qed.

(** C7.  On ["def foo():\n    # comment\n    if x and y:\n        pass\n"]
    the extractor returns [loc] 4, [num_comments] 1, [num_functions] at
    least 1, [cyclomatic_complexity_estimate] at least 3,
    [avg_line_length] the mean length of the four lines, and [num_todos]
    0. *)
Theorem analyze_code_scenario (db : UnicodeDB) :
  splitlines Sample.scenario_text = Sample.scenario_lines
  /\ analyze_code Sample.scenario_text !! "loc" = Some (4 # 1)
  /\ analyze_code Sample.scenario_text !! "num_comments" = Some (1 # 1)
  /\ (exists f, analyze_code Sample.scenario_text !! "num_functions" = Some f
                /\ (1 <= f)%Q)
  /\ (exists c, analyze_code Sample.scenario_text
                  !! "cyclomatic_complexity_estimate" = Some c
                /\ (3 <= c)%Q)
  /\ (exists a, analyze_code Sample.scenario_text !! "avg_line_length" = Some a
                /\ a == float_of_nat (total_length Sample.scenario_lines)
                        / float_of_nat (length Sample.scenario_lines)
                /\ a == 25 # 2)
  /\ analyze_code Sample.scenario_text !! "num_todos" = Some (0 # 1).
Proof.
  split; [vm_compute; reflexivity|].
  split; [vm_compute; reflexivity|].
  split; [vm_compute; reflexivity|].
  split.
  { exists (float_of_nat (num_functions Sample.scenario_text)).
    split; [reflexivity|]. vm_compute. discriminate. }
  split.
  { exists (cyclomatic_complexity_estimate Sample.scenario_text).
    split; [reflexivity|]. vm_compute. discriminate. }
  split.
  { exists (avg_line_length Sample.scenario_text).
    split; [reflexivity|]. split; vm_compute; reflexivity. }
  vm_compute; reflexivity.
Qed.

(** ** The matcher finds matches only *)

Section Matcher.
Context `{db : UnicodeDB}.

Lemma prev_after_nil (prev : option N) : prev_after prev [] = prev.
Proof. reflexivity. Qed.

Lemma prev_after_app (prev : option N) (m1 m2 : list N) :
  prev_after prev (m1 ++ m2) = prev_after (prev_after prev m1) m2.
Proof.
  unfold prev_after.
  destruct m2 as [|c m2 _] using rev_ind.
  - rewrite app_nil_r. simpl. destruct (last m1); reflexivity.
  - rewrite app_assoc, !last_snoc. reflexivity.
Qed.

Lemma star_run_sound (p : N -> bool) (k : cont) (s : list N) :
  forall prev x,
    star_run p k prev s = Some x ->
    exists m t, s = m ++ t
      /\ Forall (fun c => p c = true) m
      /\ k (prev_after prev m) t = Some x.
Proof.
  induction s as [|c t IH]; intros prev x Hrun; simpl in Hrun.
  - exists [], []. auto.
  - destruct (p c) eqn:Hp.
    + destruct (star_run p k (Some c) t) as [y|] eqn:Hrec.
      * injection Hrun as <-.
        destruct (IH _ _ Hrec) as (m & t' & -> & Hall & Hk).
        exists (c :: m), t'. split; [reflexivity|]. split.
        -- constructor; assumption.
        -- change (c :: m) with ([c] ++ m). rewrite prev_after_app.
           exact Hk.
      * exists [], (c :: t). auto.
    + exists [], (c :: t). auto.
Qed.

Lemma rmatch_sound (r : regex) :
  forall (k : cont) prev s x,
    rmatch r k prev s = Some x ->
    exists m t, s = m ++ t
      /\ spans r prev m t
      /\ k (prev_after prev m) t = Some x.
Proof.
  induction r as [cs| |r1 IH1 r2 IH2|r1 IH1 r2 IH2|cs];
    intros k prev s x Hm; simpl in Hm.
  - destruct s as [|c t]; [discriminate|].
    destruct (cset_mem cs c) eqn:Hc; [|discriminate].
    exists [c], t. split; [reflexivity|]. split; [|exact Hm].
    exists c. auto.
  - destruct (at_boundary prev s) eqn:Hb; [|discriminate].
    exists [], s. simpl. auto.
  - destruct (IH1 _ _ _ _ Hm) as (m1 & t1 & -> & Hs1 & Hk1).
    destruct (IH2 _ _ _ _ Hk1) as (m2 & t & -> & Hs2 & Hk2).
    exists (m1 ++ m2), t. split; [apply app_assoc|]. split.
    + exists m1, m2. auto.
    + rewrite prev_after_app. exact Hk2.
  - destruct (rmatch r1 k prev s) as [y|] eqn:H1.
    + injection Hm as <-.
      destruct (IH1 _ _ _ _ H1) as (m & t & -> & Hs & Hk).
      exists m, t. simpl. auto.
    + destruct (IH2 _ _ _ _ Hm) as (m & t & -> & Hs & Hk).
      exists m, t. simpl. auto.
  - destruct (star_run_sound _ _ _ _ _ Hm) as (m & t & -> & Hall & Hk).
    exists m, t. auto.
Qed.

Lemma match_at_sound (r : regex) (prev : option N) (s rest : list N) :
  match_at r prev s = Some rest ->
  exists m, s = m ++ rest /\ spans r prev m rest.
Proof.
  intros Hm. destruct (rmatch_sound r _ _ _ _ Hm) as (m & t & -> & Hs & Hk).
  injection Hk as ->. exists m. auto.
Qed.

(** Every span reported by the scan is a match of the pattern at that
    place of the text. *)
Lemma scan_sound (r : regex) (s : list N) :
  forall (pre : list N) (skip i j : nat),
    (i, j) ∈ scan r (length pre) (last pre) s skip ->
    exists pre' m rest,
      pre ++ s = pre' ++ m ++ rest
      /\ length pre' = i /\ j = (i + length m)%nat
      /\ spans r (last pre') m rest.
Proof.
  induction s as [|c t IH]; intros pre skip i j Hin; simpl in Hin.
  - inversion Hin.
  - assert (forall skip',
              (i, j) ∈ scan r (S (length pre)) (Some c) t skip' ->
              exists pre' m rest,
                pre ++ c :: t = pre' ++ m ++ rest
                /\ length pre' = i /\ j = (i + length m)%nat
                /\ spans r (last pre') m rest) as Hnext.
    { intros skip' Hin'.
      specialize (IH (pre ++ [c]) skip' i j).
      rewrite length_app, last_snoc in IH. simpl in IH.
      rewrite Nat.add_1_r in IH.
      destruct (IH Hin') as (pre' & m & rest & Heq & Hrest).
      exists pre', m, rest. split; [|exact Hrest].
      rewrite <- Heq, <- app_assoc. reflexivity. }
    destruct skip as [|n]; [|apply (Hnext _ Hin)].
    destruct (match_at r (last pre) (c :: t)) as [rest|] eqn:Hm;
      [|apply (Hnext _ Hin)].
    apply elem_of_cons in Hin. destruct Hin as [Heq|Hin];
      [|apply (Hnext _ Hin)].
    injection Heq as -> ->.
    destruct (match_at_sound _ _ _ _ Hm) as (m & Hs & Hsp).
    exists pre, m, rest. rewrite Hs. split; [reflexivity|].
    split; [reflexivity|]. split; [|exact Hsp].
    apply (f_equal length) in Hs. rewrite length_app in Hs.
    simpl in Hs. lia.
Qed.

Lemma finditer_sound (r : regex) (text : list N) (i j : nat) :
  (i, j) ∈ finditer r text ->
  exists pre m rest,
    text = pre ++ m ++ rest
    /\ length pre = i /\ j = (i + length m)%nat
    /\ slice text i j = m
    /\ spans r (last pre) m rest.
Proof.
  intros Hin. destruct (scan_sound r text [] 0 i j Hin)
    as (pre & m & rest & Heq & Hi & Hj & Hsp).
  simpl in Heq. exists pre, m, rest.
  repeat split; try assumption.
  unfold slice. subst i j. rewrite Heq.
  rewrite drop_app_length.
  replace (length pre + length m - length pre)%nat with (length m) by lia.
  apply take_app_length.
Qed.

(** A literal matches itself only. *)
Lemma spans_Str_of_CLit (w : list N) :
  w <> [] ->
  forall prev m after, spans (Str_of CLit w) prev m after -> m = w.
Proof.
  induction w as [|c w IH]; intros Hne prev m after Hsp; [congruence|].
  destruct w as [|d w].
  - simpl in Hsp. destruct Hsp as (c' & -> & Hc).
    apply N.eqb_eq in Hc. congruence.
  - change (Str_of CLit (c :: d :: w))
      with (Seq (Chr (CLit c)) (Str_of CLit (d :: w))) in Hsp.
    destruct Hsp as (m1 & m2 & -> & (c' & -> & Hc) & Hs2).
    apply N.eqb_eq in Hc. subst c'.
    apply IH in Hs2; [|discriminate]. subst m2. reflexivity.
Qed.

Lemma spans_Alts (r : regex) (rs : list regex) prev m after :
  spans (Alts r rs) prev m after ->
  Exists (fun r' => spans r' prev m after) (r :: rs).
Proof.
  revert r. induction rs as [|r' rs IH]; intros r Hsp; simpl in Hsp.
  - constructor. exact Hsp.
  - destruct Hsp as [Hsp|Hsp].
    + constructor. exact Hsp.
    + apply Exists_cons_tl. apply IH. exact Hsp.
Qed.

Lemma spans_AnyOf (w : string) (ws : list string) prev m after :
  Forall (fun w' => lit w' <> []) (w :: ws) ->
  spans (AnyOf w ws) prev m after ->
  m ∈ map lit (w :: ws).
Proof.
  intros Hne Hsp. apply spans_Alts in Hsp.
  change (Str w :: map Str ws) with (map Str (w :: ws)) in Hsp.
  induction (w :: ws) as [|w' l IH]; [inversion Hsp|].
  apply Forall_cons in Hne as [Hw' Hl].
  simpl in Hsp. apply Exists_cons in Hsp as [Hsp|Hsp].
  - apply spans_Str_of_CLit in Hsp; [|exact Hw']. subst m. left.
  - right. apply IH; assumption.
Qed.

(** A match of [CONTROL_KEYWORDS] is one of the eleven tokens, with a
    word boundary on either side. *)
Lemma spans_CONTROL_KEYWORDS prev m after :
  spans CONTROL_KEYWORDS prev m after ->
  m ∈ map lit ["if"; "elif"; "for"; "while"; "and"; "or"; "case";
               "except"; "catch"; "&&"; "||"]
  /\ at_boundary prev (m ++ after) = true
  /\ at_boundary (prev_after prev m) after = true.
Proof.
  unfold CONTROL_KEYWORDS. cbn [spans].
  intros (m1 & m23 & -> & (-> & Hb1) & (m2 & m3 & -> & Halt & (-> & Hb2))).
  rewrite app_nil_l, app_nil_r in *. rewrite prev_after_nil in Hb2.
  split; [|auto].
  apply spans_AnyOf in Halt; [exact Halt|].
  repeat constructor; discriminate.
Qed.

(** [&] and [|] are not word characters, whatever the database says about
    the code points beyond ASCII. *)
Lemma ampersand_bar_not_word : isword 38 = false /\ isword 124 = false.
Proof. split; reflexivity. Qed.

Lemma boundary_before_nonword (prev : option N) (c : N) (s : list N) :
  isword c = false ->
  at_boundary prev (c :: s) = true ->
  exists a, prev = Some a /\ isword a = true.
Proof.
  unfold at_boundary. simpl. intros ->.
  destruct prev as [a|]; simpl; [|discriminate].
  rewrite xorb_false_r. eauto.
Qed.

Lemma boundary_after_nonword (c : N) (s : list N) :
  isword c = false ->
  at_boundary (Some c) s = true ->
  exists b, head s = Some b /\ isword b = true.
Proof.
  unfold at_boundary. simpl. intros ->.
  destruct s as [|b s]; simpl; [discriminate|]. eauto.
Qed.

Lemma lookup_before (pre : list N) (a : N) (s : list N) :
  last pre = Some a -> (pre ++ s) !! (length pre - 1)%nat = Some a.
Proof.
  intros Hl. destruct pre as [|x pre _] using rev_ind; [discriminate|].
  rewrite last_snoc in Hl. injection Hl as ->.
  rewrite length_app. simpl.
  replace (length pre + 1 - 1)%nat with (length pre) by lia.
  rewrite <- app_assoc. apply list_lookup_middle. reflexivity.
Qed.

Lemma lookup_after (pre m rest : list N) (b : N) :
  head rest = Some b ->
  (pre ++ m ++ rest) !! (length pre + length m)%nat = Some b.
Proof.
  destruct rest as [|b' rest]; [discriminate|]. simpl. intros [= ->].
  rewrite app_assoc. apply list_lookup_middle.
  rewrite length_app. reflexivity.
Qed.

End Matcher.

(** C9.  The pattern [CONTROL_KEYWORDS] puts the whole alternation between
    two [\b]; [&] and [|] are not word characters, so a match that is [&&]
    or [||] has a word character immediately before it and immediately
    after it (as in [a&&b], which counts), while the spaced forms
    [x && y] and [x || y] add nothing to the baseline of 1. *)
Theorem control_keywords_operators_need_word_neighbours
    (db : UnicodeDB) (text : list N) :
  cyclomatic_complexity_estimate text
  = (float_of_nat (length (finditer CONTROL_KEYWORDS text)) + 1)%Q
  /\ (forall i j,
        (i, j) ∈ finditer CONTROL_KEYWORDS text ->
        slice text i j = lit "&&" \/ slice text i j = lit "||" ->
        exists a b,
          (0 < i)%nat
          /\ text !! (i - 1)%nat = Some a /\ isword a = true
          /\ text !! j = Some b /\ isword b = true)
  /\ isword 38 = false /\ isword 124 = false
  /\ cyclomatic_complexity_estimate (lit "x && y") == 1
  /\ cyclomatic_complexity_estimate (lit "x || y") == 1
  /\ cyclomatic_complexity_estimate (lit "a&&b") == 2
  /\ cyclomatic_complexity_estimate (lit "a||b") == 2.
Proof.
  split.
  { unfold cyclomatic_complexity_estimate, complexity_tokens, findall.
    rewrite length_map. reflexivity. }
  split.
  { intros i j Hin Hop.
    destruct (finditer_sound _ _ _ _ Hin)
      as (pre & m & rest & Htext & Hi & Hj & Hsl & Hsp).
    apply spans_CONTROL_KEYWORDS in Hsp. destruct Hsp as (_ & Hb1 & Hb2).
    rewrite Hsl in Hop.
    assert (exists c, isword c = false /\ m = [c; c]) as (c & Hc & ->).
    { destruct Hop as [->| ->]; [exists 38 | exists 124];
        split; reflexivity. }
    apply (boundary_before_nonword _ _ _ Hc) in Hb1.
    destruct Hb1 as (a & Hlast & Ha).
    apply (boundary_after_nonword _ _ Hc) in Hb2.
    destruct Hb2 as (b & Hhead & Hb).
    exists a, b. subst i j text.
    split; [destruct pre; [discriminate | simpl; lia]|].
    split; [apply lookup_before, Hlast|]. split; [exact Ha|].
    split; [apply lookup_after, Hhead | exact Hb]. }
  repeat split; vm_compute; reflexivity.
Qed.

Section Consuming.
Context `{db : UnicodeDB}.

Lemma spans_consumes (r : regex) :
  consumes r = true ->
  forall prev m after, spans r prev m after -> m <> [].
Proof.
  induction r as [cs| |r1 IH1 r2 IH2|r1 IH1 r2 IH2|cs];
    simpl; intros Hc prev m after Hsp; try discriminate.
  - destruct Hsp as (c & -> & _). discriminate.
  - destruct Hsp as (m1 & m2 & -> & Hs1 & Hs2).
    apply orb_true_iff in Hc. intros Hnil.
    apply app_eq_nil in Hnil. destruct Hnil as [-> ->].
    destruct Hc as [Hc|Hc]; [eapply IH1 | eapply IH2]; eauto.
  - apply andb_true_iff in Hc. destruct Hc as [Hc1 Hc2].
    destruct Hsp as [Hsp|Hsp]; [eapply IH1 | eapply IH2]; eauto.
Qed.

(** A match of a consuming pattern leaves strictly less text. *)
Lemma match_at_consumes (r : regex) prev (s rest : list N) :
  consumes r = true ->
  match_at r prev s = Some rest ->
  (length rest < length s)%nat.
Proof.
  intros Hc Hm. destruct (match_at_sound _ _ _ _ Hm) as (m & -> & Hsp).
  apply (spans_consumes r Hc) in Hsp.
  rewrite length_app. destruct m; [congruence | simpl; lia].
Qed.

(** All five patterns of [static_analysis.py] are of that kind. *)
Lemma source_patterns_consume :
  Forall (fun r => consumes r = true)
    (CONTROL_KEYWORDS :: pat_todo :: function_patterns).
Proof. repeat constructor. Qed.

End Consuming.

(** ** The feature vectorizer *)

Lemma FEATURE_COLUMNS_NoDup : NoDup FEATURE_COLUMNS.
Proof. compute_done. Qed.

(** The dictionary built by the comprehension holds every schema name. *)
Lemma schema_row_lookup (f : string -> Q) (name : string) :
  name ∈ FEATURE_COLUMNS ->
  (list_to_map (map (fun name => (name, f name)) FEATURE_COLUMNS)
     : gmap string Q) !! name = Some (f name).
Proof.
  intros Hin. apply elem_of_list_to_map_1.
  - change (map ?g ?l).*1 with (fst <$> (g <$> l)).
    rewrite <- list_fmap_compose.
    rewrite (list_fmap_ext _ id FEATURE_COLUMNS) by (intros; reflexivity).
    rewrite list_fmap_id. apply FEATURE_COLUMNS_NoDup.
  - apply (list_elem_of_fmap_2 (fun name => (name, f name))). exact Hin.
Qed.

(** C2.  For every metrics dictionary, also one that lacks schema keys,
    [metrics_to_features] returns a frame with one row of length 6 under
    the columns of the schema in their fixed order; the entry under a name
    is the value the dictionary holds for it, and 0.0 where it holds
    none. *)
Theorem metrics_to_features_fixed_schema (metrics : gmap string Q) :
  columns (metrics_to_features metrics) = FEATURE_COLUMNS
  /\ exists v,
       rows (metrics_to_features metrics) = [v]
       /\ length v = 6%nat
       /\ v = map (fun name => Some (default 0%Q (metrics !! name)))
                FEATURE_COLUMNS
       /\ forall i name,
            FEATURE_COLUMNS !! i = Some name ->
            (forall x, metrics !! name = Some x -> v !! i = Some (Some x))
            /\ (metrics !! name = None -> v !! i = Some (Some 0%Q)).
Proof.
  split; [reflexivity|].
  set (f := fun name : string => default 0%Q (metrics !! name)).
  assert (rows (metrics_to_features metrics)
          = [map (fun name => Some (f name)) FEATURE_COLUMNS]) as Hrows.
  { unfold metrics_to_features, frame_of_row. cbn [rows].
    apply (f_equal (fun row => [row])).
    apply list_fmap_ext. intros i name Hi.
    apply (schema_row_lookup f). eapply list_elem_of_lookup_2, Hi. }
  exists (map (fun name => Some (f name)) FEATURE_COLUMNS).
  split; [exact Hrows|]. split; [reflexivity|]. split; [reflexivity|].
  intros i name Hi.
  change (map ?g ?l) with (g <$> l). rewrite list_lookup_fmap, Hi.
  unfold f. simpl. split.
  - intros x ->. reflexivity.
  - intros ->. reflexivity.
Qed.

(** ** The model provider *)

Section Provider.
Context `{P : Pickle}.



(** The generator and the learner are both made with a seed, so the
    training set and the classifier are those of any other machine. *)
Lemma synthetic_data_seeded (e e' : N) :
  synthetic_data e = synthetic_data e'.
Proof.
  unfold synthetic_data. cbv zeta.
  rewrite (rng_normal_seeded 42 e e'). reflexivity.
Qed.

Lemma fallback_seeded (e e' : N) :
  _train_fallback_model e = _train_fallback_model e'.
Proof.
  unfold _train_fallback_model.
  rewrite (synthetic_data_seeded e e'). apply rf_fit_seeded.
Qed.


(** The three ways a call can go. *)
Lemma load_absent (path : list N) (w : world) :
  fs w !! path = None ->
  load_or_train_model path w
  = ((PyClassifier (_train_fallback_model (entropy w)), fallback_name),
     log (EvTrain path) w).
Proof. intros Hfs. unfold load_or_train_model. rewrite Hfs. reflexivity. Qed.

Lemma load_unopenable (path : list N) (w : world) :
  fs w !! path = Some Unopenable ->
  load_or_train_model path w
  = ((PyClassifier (_train_fallback_model (entropy w)), fallback_name),
     log (EvTrain path) w).
Proof. intros Hfs. unfold load_or_train_model. rewrite Hfs. reflexivity. Qed.

Lemma load_readable (path content : list N) (w : world) :
  fs w !! path = Some (Readable content) ->
  load_or_train_model path w
  = match pickle_load content with
    | Some model =>
        ((model, loaded_name path), log (EvUnpickle path) w)
    | None => train_fallback path (log (EvUnpickle path) w)
    end.
Proof. intros Hfs. unfold load_or_train_model. rewrite Hfs. reflexivity. Qed.

(** A call leaves the file system as it found it. *)
Lemma load_preserves_fs (path : list N) (w : world) :
  fs (snd (load_or_train_model path w)) = fs w.
Proof.
  unfold load_or_train_model.
  destruct (fs w !! path) as [[|content]|]; try reflexivity.
  destruct (pickle_load content); reflexivity.
Qed.




Lemma loaded_name_not_fallback (path : list N) :
  loaded_name path <> fallback_name.
Proof. unfold loaded_name, fallback_name. simpl. discriminate. Qed.

End Provider.



(** C4.  Where no file exists at the path, a call returns the fallback
    classifier: the learner, made with the seed 42, is trained on 128 rows
    of six features drawn by a generator made with the seed 42, and on
    the labels the rule of the source gives these rows.  The first call
    leaves the path without a file, so a second call is in the same case.
    Two such calls (for one path or for two) train on the same data and
    return equal classifiers, which predict alike on every feature
    vector, whatever the state of the two machines, or of one machine at
    two times, and so whatever an unseeded generator would have drawn
    there: the source seeds both the generator and the learner, and the
    libraries are reproducible under a seed. *)
Theorem fallback_is_deterministic
    (L : Libraries) (P : Pickle) (w w' : world) (path path' : list N) :
  fs w !! path = None ->
  fs w' !! path' = None ->
  let r1 := fst (load_or_train_model path w) in
  let r2 := fst (load_or_train_model path' w') in
  let X1 := rng_normal (Some 42%Z) (entropy w) 128 6 in
  let X2 := rng_normal (Some 42%Z) (entropy w') 128 6 in
  r1 = (PyClassifier (rf_fit 100 (Some 42%Z) (entropy w)
                        X1 (map synthetic_label X1)),
        fallback_name)
  /\ r2 = (PyClassifier (rf_fit 100 (Some 42%Z) (entropy w')
                           X2 (map synthetic_label X2)),
           fallback_name)
  /\ X2 = X1
  /\ r2 = r1
  /\ (forall x, predict (fst r1) x = predict (fst r2) x
                /\ is_Some (predict (fst r1) x))
  /\ fs (snd (load_or_train_model path w)) !! path = None.
Proof.
  intros Hfs Hfs' r1 r2 X1 X2.
  assert (r1 = (PyClassifier (_train_fallback_model (entropy w)),
                fallback_name)) as H1.
  { unfold r1. rewrite (load_absent path w Hfs). reflexivity. }
  assert (r2 = (PyClassifier (_train_fallback_model (entropy w')),
                fallback_name)) as H2.
  { unfold r2. rewrite (load_absent path' w' Hfs'). reflexivity. }
  assert (r2 = r1) as H21.
  { rewrite H1, H2, (fallback_seeded (entropy w') (entropy w)).
    reflexivity. }
  split; [exact H1|]. split; [exact H2|].
  split; [apply rng_normal_seeded|]. split; [exact H21|].
  split.
  - intros x. rewrite H21. split; [reflexivity|].
    rewrite H1. simpl. eauto.
  - rewrite load_preserves_fs. exact Hfs.
Qed.


(** C10.  When the file at the path can be read and unpickled, the call
    returns the unpickled object, whatever it is, under the name of a
    loaded model: nothing checks that it is a classifier.  The fallback
    is returned only when there is no file, or opening it fails, or
    unpickling it fails. *)
Theorem load_returns_unpickled_object_unchecked
    (L : Libraries) (P : Pickle) (w : world) (path content : list N)
    (o : pyobj) :
  fs w !! path = Some (Readable content) ->
  pickle_load content = Some o ->
  fst (load_or_train_model path w) = (o, loaded_name path)
  /\ loaded_name path <> fallback_name
  /\ (forall w' m,
        fst (load_or_train_model path w') = (m, fallback_name) ->
        fs w' !! path = None
        \/ fs w' !! path = Some Unopenable
        \/ exists c, fs w' !! path = Some (Readable c)
                     /\ pickle_load c = None).
Proof.
  intros Hfs Hload.
  split.
  { rewrite (load_readable path content w Hfs), Hload. reflexivity. }
  split; [apply loaded_name_not_fallback|].
  intros w' m Hres.
  destruct (fs w' !! path) as [[|c]|] eqn:Hfs'; [auto | | auto].
  right; right. exists c. split; [reflexivity|].
  rewrite (load_readable path c w' Hfs') in Hres.
  destruct (pickle_load c) as [o'|]; [|reflexivity].
  apply (f_equal snd) in Hres. cbn [fst snd] in Hres.
  exfalso. exact (loaded_name_not_fallback path Hres).
Qed.


(** ** The dataset ingestor *)

Import PromiseIngest.

Section Ingestor.
Context `{cv : Conversions}.

Lemma bind_Ok {A B : Type} (m : result A) (f : A -> result B) (b : B) :
  m ≫= f = Ok b -> exists a, m = Ok a /\ f a = Ok b.
Proof. destruct m as [a|e]; simpl; [eauto | discriminate]. Qed.

(** One successful step of a computation that went through, the value of
    which does not matter. *)
Ltac skip_step H :=
  let a := fresh "step" in
  apply bind_Ok in H as (a & _ & H).

Lemma has_column_get (df : RawFrame) (name : string) :
  (has_column df name = true -> exists column, get df name = Some column)
  /\ (has_column df name = false -> get df name = None).
Proof.
  unfold has_column, get.
  induction (frame_columns df) as [|[k v] cols [IHt IHf]]; simpl.
  - split; [discriminate | reflexivity].
  - destruct (String.eqb k name); simpl; [|split; assumption].
    split; [eauto | discriminate].
Qed.

(** A column all of whose cells are present. *)
Lemma cast_id_Ok {A : Type} (l : list (option A)) (k : list A) :
  cast id l = Ok k -> l = map Some k.
Proof.
  unfold cast. destruct (mapM id l) as [k'|] eqn:Hm; [|discriminate].
  intros [= ->]. apply mapM_Some in Hm.
  induction Hm as [|x y l k Hxy _ IH]; [reflexivity|].
  simpl in *. congruence.
Qed.

Lemma cast_Ok_Forall2 {A B : Type} (f : A -> option B)
    (l : list A) (k : list B) :
  cast f l = Ok k -> Forall2 (fun x y => f x = Some y) l k.
Proof.
  unfold cast. destruct (mapM f l) as [k'|] eqn:Hm; [|discriminate].
  intros [= ->]. apply mapM_Some, Hm.
Qed.

(** The steps of a mapping that went through. *)
Lemma map_Ok_steps (df : RawFrame) (fr : Frame) :
  _map_promise_to_features df = Ok fr ->
  exists label_col loc v_g n_f loc_1 loc_f lOComment_f v_g_f lbl places,
    resolve_label df = Ok label_col
    /\ first_present df ["loc"; "lOCode"; "locCodeAndComment"] = Some loc
    /\ first_present df ["v(g)"; "branchCount"] = Some v_g
    /\ cast cell_float
         (default (replicate (nrows df) (CFloat (Fin 0))) (get df "n"))
       = Ok n_f
    /\ cast cell_float (map replace_0_1 loc) = Ok loc_1
    /\ cast cell_float loc = Ok loc_f
    /\ cast cell_float
         (default (replicate (nrows df) (CFloat (Fin 0)))
            (get df "lOComment"))
       = Ok lOComment_f
    /\ cast cell_float v_g = Ok v_g_f
    /\ label_col = map Some lbl
    /\ frame_layout df = Ok places
    /\ fr = map (mapped_row df n_f loc_1 loc_f lOComment_f v_g_f lbl)
              places.
Proof.
  unfold _map_promise_to_features. intros Hm.
  apply bind_Ok in Hm as (label_col & Hlabel & Hm).
  apply bind_Ok in Hm as (loc & Hloc & Hm).
  apply bind_Ok in Hm as (v_g & Hvg & Hm).
  apply bind_Ok in Hm as (n_f & Hn & Hm).
  apply bind_Ok in Hm as (loc_1 & Hloc1 & Hm).
  apply bind_Ok in Hm as (loc_f & Hlocf & Hm).
  apply bind_Ok in Hm as (lOComment_f & Hcom & Hm).
  apply bind_Ok in Hm as (v_g_f & Hvgf & Hm).
  apply bind_Ok in Hm as (lbl & Hcast & Hm).
  apply bind_Ok in Hm as (places & Hplaces & Hm).
  injection Hm as <-. apply cast_id_Ok in Hcast.
  exists label_col, loc, v_g, n_f, loc_1, loc_f, lOComment_f, v_g_f, lbl,
    places.
  repeat split; try assumption.
  - destruct (first_present df ["loc"; "lOCode"; "locCodeAndComment"]);
      [simpl in Hloc; congruence | discriminate].
  - destruct (first_present df ["v(g)"; "branchCount"]);
      [simpl in Hvg; congruence | discriminate].
Qed.

(** The rows of a frame whose columns are in step. *)
Lemma frame_layout_in_step (df : RawFrame) :
  Frames.in_step_with_source df ->
  frame_layout df = Ok (in_step (nrows df)).
Proof.
  unfold Frames.in_step_with_source, frame_layout.
  intros [->|[-> ->]]; [reflexivity|].
  destruct (frame_index df); reflexivity.
Qed.

Lemma in_step_lookup (n i : nat) (p : place) :
  in_step n !! i = Some p <-> (i < n)%nat /\ p = (Some i, Some i).
Proof.
  unfold in_step. rewrite list_lookup_fmap.
  destruct (seq 0 n !! i) as [j|] eqn:Hj; simpl.
  - apply lookup_seq in Hj as [-> Hlt]. simpl.
    split; [intros [= <-]; auto | intros [_ ->]; reflexivity].
  - split; [discriminate|]. intros [Hlt _].
    apply lookup_ge_None in Hj. rewrite length_seq in Hj. lia.
Qed.

Lemma mapped_row_in_step (df : RawFrame)
    (n_f loc_1 loc_f lOComment_f v_g_f : list float) (lbl : list Z)
    (i : nat) :
  mapped_row df n_f loc_1 loc_f lOComment_f v_g_f lbl (Some i, Some i)
  = build_row (float_at loc_f (Some i)) (float_at lOComment_f (Some i))
      (float_at v_g_f (Some i))
      (fdiv (float_at n_f (Some i)) (float_at loc_1 (Some i)))
      (lbl !! i).
Proof.
  unfold mapped_row. cbn [fst snd].
  destruct (has_column df "lOComment"), (has_column df "n"); reflexivity.
Qed.

Lemma get_well_formed (df : RawFrame) (name : string) (column : list cell) :
  Frames.well_formed df -> get df name = Some column ->
  length column = nrows df.
Proof.
  unfold Frames.well_formed, get. generalize (nrows df) as n. intros n Hwf.
  induction (frame_columns df) as [|[k v] cols IH]; [discriminate|].
  apply Forall_cons in Hwf as [Hv Hwf]. simpl.
  destruct (String.eqb k name); [intros [= <-]; exact Hv | apply IH, Hwf].
Qed.

Lemma resolve_label_length (df : RawFrame) (label_col : list (option Z)) :
  Frames.well_formed df -> resolve_label df = Ok label_col ->
  length label_col = nrows df.
Proof.
  intros Hwf. unfold resolve_label.
  destruct (get df "defects") as [defects|] eqn:Hd.
  - intros [= <-]. rewrite length_map. eapply get_well_formed; eassumption.
  - destruct (get df "label") as [lbl|] eqn:Hl; [|discriminate].
    intros Hr. apply bind_Ok in Hr as (ints & Hcast & [= <-]).
    apply cast_Ok_Forall2, Forall2_length in Hcast.
    rewrite length_map, <- Hcast. eapply get_well_formed; eassumption.
Qed.

(** The label of a mapped row is one of the resolved labels, or is
    missing. *)
Lemma mapped_row_label (df : RawFrame)
    (n_f loc_1 loc_f lOComment_f v_g_f : list float) (lbl : list Z)
    (p : place) :
  label (mapped_row df n_f loc_1 loc_f lOComment_f v_g_f lbl p) = None
  \/ exists l,
       l ∈ lbl
       /\ label (mapped_row df n_f loc_1 loc_f lOComment_f v_g_f lbl p)
          = Some l.
Proof.
  unfold mapped_row, build_row. cbn [label].
  destruct (cell_at lbl (fst p)) as [l|] eqn:Hl; [right | left; reflexivity].
  exists l. split; [|reflexivity].
  unfold cell_at in Hl. destruct (fst p) as [i|]; [|discriminate].
  eapply list_elem_of_lookup_2, Hl.
Qed.

Lemma map_Ok_labels (df : RawFrame) (fr : Frame) :
  _map_promise_to_features df = Ok fr ->
  exists lbls,
    resolve_label df = Ok (map Some lbls)
    /\ (forall r,
          r ∈ fr ->
          label r = None \/ exists l, l ∈ lbls /\ label r = Some l)
    /\ (Frames.in_step_with_source df -> Frames.well_formed df ->
        map label fr = map Some lbls).
Proof.
  intros Hm. apply map_Ok_steps in Hm
    as (label_col & loc & v_g & n_f & loc_1 & loc_f & lOComment_f & v_g_f
        & lbl & places & Hlabel & _ & _ & _ & _ & _ & _ & _ & -> & Hplaces
        & ->).
  exists lbl. split; [exact Hlabel|]. split.
  - intros r Hr. apply list_elem_of_fmap in Hr as (p & -> & _).
    apply mapped_row_label.
  - intros Hstep Hwf. rewrite (frame_layout_in_step df Hstep) in Hplaces.
    pose proof (resolve_label_length _ _ Hwf Hlabel) as Hlen.
    rewrite length_map in Hlen.
    injection Hplaces as <-. rewrite <- Hlen.
    apply list_eq. intros i. rewrite !list_lookup_fmap.
    destruct (in_step (length lbl) !! i) as [p|] eqn:Hp; simpl.
    + apply in_step_lookup in Hp as [Hlt ->]. simpl.
      destruct (lbl !! i) as [l|] eqn:Hl; [reflexivity|].
      apply lookup_ge_None in Hl. lia.
    + destruct (lbl !! i) as [l|] eqn:Hl; [|reflexivity]. exfalso.
      apply lookup_lt_Some in Hl.
      pose proof (proj2 (in_step_lookup (length lbl) i (Some i, Some i))
                    (conj Hl eq_refl)) as Hp'.
      unfold place in *. congruence.
Qed.

(** Cutting the fraction off a value within the range of [int64], and
    beyond it. *)
Lemma int64_of_float_fits (q : Q) :
  (inject_Z INT64_MIN <= q)%Q -> (q < inject_Z (2 ^ 63))%Q ->
  int64_of_float q = Qtrunc q.
Proof.
  intros Hlo Hhi. unfold int64_of_float. cbv zeta.
  assert (INT64_MIN <= Qtrunc q < 2 ^ 63)%Z as [H1 H2].
  { unfold Qtrunc. destruct (Qlt_le_dec q 0) as [Hneg|Hpos].
    - split.
      + apply (Qceiling_resp_le _ _) in Hlo. rewrite Qceiling_Z in Hlo.
        exact Hlo.
      + assert (Qceiling q <= Qceiling 0)%Z as H0
          by (apply Qceiling_resp_le, Qlt_le_weak, Hneg).
        change (Qceiling 0) with 0%Z in H0. lia.
    - split.
      + assert (Qfloor 0 <= Qfloor q)%Z as H0
          by (apply Qfloor_resp_le, Hpos).
        change (Qfloor 0) with 0%Z in H0. unfold INT64_MIN. lia.
      + rewrite Zlt_Qlt.
        eapply Qle_lt_trans; [apply Qfloor_le | exact Hhi]. }
  apply Z.leb_le in H1. apply Z.ltb_lt in H2. rewrite H1, H2. reflexivity.
Qed.

Lemma int64_of_float_overflows (q : Q) :
  (inject_Z (2 ^ 63) <= q)%Q \/ (q <= inject_Z (INT64_MIN - 1))%Q ->
  int64_of_float q = INT64_MIN.
Proof.
  intros Hout. unfold int64_of_float. cbv zeta.
  destruct (INT64_MIN <=? Qtrunc q)%Z eqn:H1; [|reflexivity].
  destruct (Qtrunc q <? 2 ^ 63)%Z eqn:H2; [|reflexivity].
  exfalso. apply Z.leb_le in H1. apply Z.ltb_lt in H2.
  unfold Qtrunc in H1, H2. destruct Hout as [Hhi|Hlo].
  - destruct (Qlt_le_dec q 0) as [Hneg|Hpos].
    + apply (Qlt_not_le _ _ Hneg). eapply Qle_trans; [|exact Hhi].
      unfold Qle. simpl. lia.
    + apply Qfloor_resp_le in Hhi. rewrite Qfloor_Z in Hhi. lia.
  - destruct (Qlt_le_dec q 0) as [Hneg|Hpos].
    + apply Qceiling_resp_le in Hlo. rewrite Qceiling_Z in Hlo. lia.
    + apply (Qle_not_lt _ _ Hpos). eapply Qle_lt_trans; [exact Hlo|].
      unfold Qlt, INT64_MIN. simpl. lia.
Qed.

(** The path of a source determines its name. *)
Lemma path_join_inj (base_dir n1 n2 : list N) :
  path_join base_dir n1 = path_join base_dir n2 -> n1 = n2.
Proof.
  unfold path_join. destruct (last base_dir) as [c|]; [|auto].
  destruct (c =? 47); intros Heq.
  - apply app_inv_head in Heq. exact Heq.
  - apply app_inv_head, app_inv_head in Heq. exact Heq.
Qed.

(** A source that is there but fails counts as little as an absent one. *)
Lemma load_source_delete_failed (files : gmap (list N) csvfile)
    (base_dir name n : list N) :
  source_failed files base_dir name = true ->
  load_source (delete (path_join base_dir name) files) base_dir n
  = load_source files base_dir n.
Proof.
  intros Hfail. unfold load_source at 1.
  destruct (decide (n = name)) as [->|Hne].
  - rewrite lookup_delete_eq.
    unfold source_failed in Hfail.
    destruct (files !! path_join base_dir name); [|discriminate].
    destruct (load_source files base_dir name); [discriminate|reflexivity].
  - rewrite lookup_delete_ne; [reflexivity|].
    intros Heq. apply path_join_inj in Heq. congruence.
Qed.

Lemma load_source_None (files : gmap (list N) csvfile)
    (base_dir name : list N) :
  load_source files base_dir name = None <->
  files !! path_join base_dir name = None
  \/ source_failed files base_dir name = true.
Proof.
  unfold source_failed.
  destruct (load_source files base_dir name) as [fr|] eqn:Hl.
  - split; [discriminate|].
    unfold load_source in Hl.
    destruct (files !! path_join base_dir name); intros [H|H];
      congruence.
  - destruct (files !! path_join base_dir name); split; auto.
Qed.

Lemma load_promise_datasets_None (files : gmap (list N) csvfile)
    (base_dir : list N) :
  load_promise_datasets files base_dir = None <->
  forall name, name ∈ PROMISE_FILENAMES ->
               load_source files base_dir name = None.
Proof.
  unfold load_promise_datasets.
  destruct (omap (load_source files base_dir) PROMISE_FILENAMES)
    as [|fr frs] eqn:Ho.
  - split; [|reflexivity]. intros _ name Hin.
    destruct (load_source files base_dir name) as [fr|] eqn:Hl;
      [|reflexivity].
    assert (fr ∈ omap (load_source files base_dir) PROMISE_FILENAMES)
      as Hfr by (apply list_elem_of_omap; eauto).
    rewrite Ho in Hfr. inversion Hfr.
  - split; [discriminate|]. intros Hall. exfalso.
    assert (fr ∈ omap (load_source files base_dir) PROMISE_FILENAMES)
      as Hfr by (rewrite Ho; left).
    apply list_elem_of_omap in Hfr as (name & Hin & Hl).
    rewrite (Hall name Hin) in Hl. discriminate.
Qed.

Lemma load_promise_datasets_keeps (files : gmap (list N) csvfile)
    (base_dir name : list N) (fr : Frame) :
  name ∈ PROMISE_FILENAMES ->
  load_source files base_dir name = Some fr ->
  exists out,
    load_promise_datasets files base_dir = Some out
    /\ forall r, r ∈ dropna fr -> r ∈ out.
Proof.
  intros Hin Hl. unfold load_promise_datasets.
  assert (fr ∈ omap (load_source files base_dir) PROMISE_FILENAMES)
    as Hfr by (apply list_elem_of_omap; eauto).
  destruct (omap (load_source files base_dir) PROMISE_FILENAMES)
    as [|fr0 frs] eqn:Ho; [inversion Hfr|].
  eexists. split; [reflexivity|]. intros r Hr.
  unfold dropna in *. apply list_elem_of_filter in Hr as [Hp Hr].
  apply list_elem_of_filter. split; [exact Hp|].
  apply list_elem_of_In, in_concat. exists fr.
  split; apply list_elem_of_In; assumption.
Qed.

End Ingestor.

(** C5.  The label of a source comes from its [defects] column when there
    is one, each value being turned into text, lower-cased and looked up
    under ["true"] (1) and ["false"] (0), so that ["True"] gives 1 and
    ["false"] gives 0; otherwise from its [label] column, converted to
    [int64]: an integer is kept, a boolean counts as 1 or 0, a float
    loses its fraction (and is the least [int64] when it does not fit),
    a missing or infinite value makes the conversion raise; and a source
    with neither column fails with the schema error.  Every label of the
    mapped frame is one of the labels so resolved (or is missing, where
    pandas had to align the rows); where the columns are in step, the
    labels of the mapped frame are the resolved ones, row by row. *)
Theorem label_column_resolution (cv : Conversions) (df : RawFrame) :
  (has_column df "defects" = true ->
   exists defects,
     get df "defects" = Some defects
     /\ resolve_label df
        = Ok (map (fun c => label_map (lower (cell_str c))) defects))
  /\ (has_column df "defects" = false -> has_column df "label" = true ->
      exists lbl,
        get df "label" = Some lbl
        /\ resolve_label df
           = (ints ← cast cell_int lbl; Ok (map Some ints)))
  /\ (has_column df "defects" = false -> has_column df "label" = false ->
      _map_promise_to_features df
      = Raise (ValueError
                 "PROMISE dataset missing 'defects' or 'label' column"))
  /\ (forall fr,
        _map_promise_to_features df = Ok fr ->
        exists lbls,
          resolve_label df = Ok (map Some lbls)
          /\ (forall r,
                r ∈ fr ->
                label r = None \/ exists l, l ∈ lbls /\ label r = Some l)
          /\ (Frames.in_step_with_source df -> Frames.well_formed df ->
              map label fr = map Some lbls))
  /\ (forall s,
        forallb is_ascii s = true ->
        (label_map (lower (cell_str (CStr s))) = Some 1%Z
         <-> map ascii_lower s = lit "true")
        /\ (label_map (lower (cell_str (CStr s))) = Some 0%Z
            <-> map ascii_lower s = lit "false"))
  /\ label_map (lower (cell_str (CStr (lit "True")))) = Some 1%Z
  /\ label_map (lower (cell_str (CStr (lit "false")))) = Some 0%Z
  /\ label_map (lower (cell_str (CBool true))) = Some 1%Z
  /\ label_map (lower (cell_str (CBool false))) = Some 0%Z
  /\ (forall z,
        (- 2 ^ 63 <= z < 2 ^ 63)%Z -> cell_int (CInt z) = Some z)
  /\ cell_int (CBool true) = Some 1%Z
  /\ cell_int (CBool false) = Some 0%Z
  /\ cell_int (CFloat (Fin 1)) = Some 1%Z
  /\ cell_int (CFloat (Fin (7 # 2))) = Some 3%Z
  /\ cell_int (CFloat (Fin (- 7 # 2))) = Some (-3)%Z
  /\ (forall q,
        (inject_Z (- 2 ^ 63) <= q)%Q -> (q < inject_Z (2 ^ 63))%Q ->
        cell_int (CFloat (Fin q)) = Some (Qtrunc q))
  /\ (forall q,
        (inject_Z (2 ^ 63) <= q)%Q \/ (q <= inject_Z (- 2 ^ 63 - 1))%Q ->
        cell_int (CFloat (Fin q)) = Some (- 2 ^ 63)%Z)
  /\ cell_int (CFloat NaN) = None
  /\ cell_int (CFloat PosInf) = None
  /\ cell_int (CFloat NegInf) = None
  /\ (forall s, cell_int (CStr s) = int_of_str s)
  /\ (forall lbl c,
        has_column df "defects" = false ->
        get df "label" = Some lbl -> c ∈ lbl -> cell_int c = None ->
        exists e, _map_promise_to_features df = Raise e)
  /\ (exists fr,
        _map_promise_to_features Sample.two_rows = Ok fr
        /\ map label fr = [Some 1%Z; Some 0%Z])
  /\ exists fr,
       _map_promise_to_features Sample.two_rows_label = Ok fr
       /\ map label fr = [Some 1%Z; Some 0%Z].
Proof.
  split.
  { intros Hd. apply has_column_get in Hd as (defects & Hd).
    exists defects. split; [exact Hd|].
    unfold resolve_label. rewrite Hd. reflexivity. }
  split.
  { intros Hd Hl. apply has_column_get in Hd.
    apply has_column_get in Hl as (lbl & Hl).
    exists lbl. split; [exact Hl|].
    unfold resolve_label. rewrite Hd, Hl. reflexivity. }
  split.
  { intros Hd Hl. apply has_column_get in Hd. apply has_column_get in Hl.
    unfold _map_promise_to_features, resolve_label.
    rewrite Hd, Hl. reflexivity. }
  split; [apply map_Ok_labels|].
  split.
  { intros s Hs. unfold lower, cell_str, label_map. rewrite Hs.
    destruct (decide (map ascii_lower s = lit "true")) as [Ht|Ht].
    - split; split; try tauto; try discriminate.
      rewrite Ht. discriminate.
    - destruct (decide (map ascii_lower s = lit "false")); split; split;
        try tauto; try discriminate. }
  do 4 (split; [reflexivity|]).
  split; [intros z _; reflexivity|].
  do 5 (split; [reflexivity|]).
  split.
  { intros q Hlo Hhi. cbn [cell_int]. f_equal.
    apply int64_of_float_fits; assumption. }
  split.
  { intros q Hout. cbn [cell_int]. f_equal.
    apply int64_of_float_overflows. exact Hout. }
  do 4 (split; [reflexivity|]).
  split.
  { intros lbl c Hd Hl Hc Hnone. apply has_column_get in Hd.
    unfold _map_promise_to_features, resolve_label. rewrite Hd, Hl.
    assert (cast cell_int lbl = Raise CastError) as ->; [|eauto].
    unfold cast. destruct (mapM cell_int lbl) as [ints|] eqn:Hm;
      [|reflexivity].
    exfalso. apply mapM_Some in Hm.
    apply list_elem_of_lookup in Hc as [i Hi].
    destruct (Forall2_lookup_l _ _ _ _ _ Hm Hi) as (z & _ & Hz).
    congruence. }
  split; eexists; split; vm_compute; reflexivity.
Qed.

(** C6 as stated does not hold in one respect: the result does not tell
    which sources failed.  A batch with no file at all and a batch whose
    only file cannot be parsed give the same answer. *)
Lemma ingest_reports_failures_counterexample :
  ~ (exists report : option Frame -> list (list N),
       forall (cv : Conversions) (files : gmap (list N) csvfile)
              (base_dir : list N),
         report (load_promise_datasets files base_dir)
         = failed_sources files base_dir).
Proof.
  intros [report Hreport].
  pose proof (Hreport Sample.conversions Sample.empty_batch Sample.data_dir) as H1.
  pose proof (Hreport Sample.conversions Sample.broken_batch Sample.data_dir) as H2.
  vm_compute in H1, H2. congruence.
Qed.

(** C6, amended.  [load_promise_datasets] never raises.  A source that
    fails is skipped: the answer is the one the batch gives without that
    file, and every complete row of every source that could be mapped is
    in it.  The answer is [None] exactly when no source could be mapped,
    each being absent or having failed.  (Which sources failed is not part
    of the answer.) *)
Theorem failing_sources_are_skipped
    (cv : Conversions) (files : gmap (list N) csvfile) (base_dir : list N) :
  (forall name,
     source_failed files base_dir name = true ->
     load_promise_datasets (delete (path_join base_dir name) files) base_dir
     = load_promise_datasets files base_dir)
  /\ (forall name fr,
        name ∈ PROMISE_FILENAMES ->
        load_source files base_dir name = Some fr ->
        exists out,
          load_promise_datasets files base_dir = Some out
          /\ forall r, r ∈ dropna fr -> r ∈ out)
  /\ (load_promise_datasets files base_dir = None <->
      forall name,
        name ∈ PROMISE_FILENAMES ->
        files !! path_join base_dir name = None
        \/ source_failed files base_dir name = true).
Proof.
  split.
  { intros name Hfail. unfold load_promise_datasets.
    rewrite (list_omap_ext _ (load_source files base_dir)
               PROMISE_FILENAMES PROMISE_FILENAMES); [reflexivity|].
    apply Forall_Forall2_diag, Forall_forall. intros n _.
    apply load_source_delete_failed, Hfail. }
  split; [apply load_promise_datasets_keeps|].
  rewrite load_promise_datasets_None.
  split; intros Hall name Hin; apply load_source_None, Hall, Hin.
Qed.


(** ** Worked instances *)

Section Instances.
Import Sample.

Lemma fallback_is_deterministic_witness :
  fs fresh_machine !! model_path = None
  /\ fs fresh_machine_later !! model_path = None
  /\ (let r1 := fst (load_or_train_model model_path fresh_machine) in
      let r2 := fst (load_or_train_model model_path fresh_machine_later) in
      let X1 := rng_normal (Some 42%Z) (entropy fresh_machine) 128 6 in
      let X2 :=
        rng_normal (Some 42%Z) (entropy fresh_machine_later) 128 6 in
      r1 = (PyClassifier (rf_fit 100 (Some 42%Z) (entropy fresh_machine)
                            X1 (map synthetic_label X1)),
            fallback_name)
      /\ r2 = (PyClassifier (rf_fit 100 (Some 42%Z)
                               (entropy fresh_machine_later)
                               X2 (map synthetic_label X2)),
               fallback_name)
      /\ X2 = X1
      /\ r2 = r1
      /\ (forall x, predict (fst r1) x = predict (fst r2) x
                    /\ is_Some (predict (fst r1) x))
      /\ fs (snd (load_or_train_model model_path fresh_machine))
           !! model_path = None).
Proof.
  split; [reflexivity|]. split; [reflexivity|].
  apply (fallback_is_deterministic libraries pickle
           fresh_machine fresh_machine_later model_path model_path);
    reflexivity.
Defined.

(** The two machines differ in what an unseeded generator draws: the
    agreement above is owed to the seeds in the source. *)
Example unseeded_draws_differ :
  entropy fresh_machine <> entropy fresh_machine_later
  /\ rng_normal None (entropy fresh_machine) 128 6
     <> rng_normal None (entropy fresh_machine_later) 128 6
  /\ rf_fit 100 None (entropy fresh_machine) [] []
     <> rf_fit 100 None (entropy fresh_machine_later) [] [].
Proof. repeat split; discriminate. Qed.

Lemma load_returns_unpickled_object_unchecked_witness :
  fs odd_machine !! model_path = Some (Readable [78; 46])
  /\ pickle_load [78; 46] = Some PyNone
  /\ fst (load_or_train_model model_path odd_machine)
     = (PyNone, loaded_name model_path)
  /\ loaded_name model_path <> fallback_name
  /\ (forall w' m,
        fst (load_or_train_model model_path w') = (m, fallback_name) ->
        fs w' !! model_path = None
        \/ fs w' !! model_path = Some Unopenable
        \/ exists c, fs w' !! model_path = Some (Readable c)
                     /\ pickle_load c = None).
Proof.
  split; [reflexivity|]. split; [reflexivity|].
  apply (load_returns_unpickled_object_unchecked libraries pickle
           odd_machine model_path [78; 46] PyNone);
    reflexivity.
Defined.

(** The object handed back there is no classifier. *)
Example unpickled_none_cannot_predict (x : list Q) :
  predict (fst (fst (load_or_train_model model_path odd_machine))) x = None.
Proof. reflexivity. Qed.

(** Further worked instances of the ingestor. *)

Example label_column_is_cast `{Conversions} :
  exists fr,
    _map_promise_to_features two_rows_label = Ok fr
    /\ map label fr = [Some 1%Z; Some 0%Z].
Proof. eexists. split; vm_compute; reflexivity. Qed.

(** A source whose rows carry the labels 7 and 8 and which lacks
    [lOComment] and [n]: where pandas lays the rows 0, 1, 7, 8 out for
    the numbered defaults and the columns of the source, the mapped frame
    has four rows, none of them complete, and two without a label; the
    source counts as ingested and contributes no row. *)
Example labelled_source_is_misaligned `{Conversions} :
  outer_join [CInt 7; CInt 8] 2 false false
  = Some [(None, Some 0); (None, Some 1); (Some 0, None); (Some 1, None)]%nat ->
  exists fr,
    _map_promise_to_features Frames.labelled_rows = Ok fr
    /\ length fr = 4%nat
    /\ map label fr = [None; None; Some 1%Z; Some 0%Z]
    /\ dropna fr = [].
Proof.
  intros Hjoin. eexists. split.
  - unfold _map_promise_to_features, frame_layout.
    change (has_column Frames.labelled_rows "lOComment") with false.
    change (has_column Frames.labelled_rows "n") with false.
    cbn [Frames.labelled_rows frame_index nrows length].
    rewrite Hjoin. vm_compute. reflexivity.
  - split; [reflexivity|]. split; vm_compute; reflexivity.
Qed.

(** The stand-in aligns these labels so. *)
Example stand_in_aligns_7_8 :
  outer_join [CInt 7; CInt 8] 2 false false
  = Some [(None, Some 0); (None, Some 1); (Some 0, None); (Some 1, None)]%nat.
Proof. vm_compute. reflexivity. Qed.

(** With both optional columns the same labels do no harm. *)
Example labelled_full_source_is_in_step `{Conversions} :
  exists fr,
    _map_promise_to_features Frames.labelled_full_rows = Ok fr
    /\ map label fr = [Some 1%Z; Some 0%Z]
    /\ dropna fr = fr.
Proof. eexists. split; [|split]; vm_compute; reflexivity. Qed.

Example no_label_is_a_schema_error `{Conversions} :
  _map_promise_to_features no_label
  = Raise (ValueError "PROMISE dataset missing 'defects' or 'label' column").
Proof. reflexivity. Qed.

Example no_loc_is_a_schema_error `{Conversions} :
  _map_promise_to_features no_loc
  = Raise (ValueError "PROMISE dataset missing a loc column (e.g., 'loc')").
Proof. reflexivity. Qed.

Example mixed_batch_keeps_the_good_source `{Conversions} :
  failed_sources mixed_batch data_dir = [lit "cm1.csv"]
  /\ load_promise_datasets mixed_batch data_dir
     = load_source mixed_batch data_dir (lit "kc1.csv")
  /\ exists out,
       load_promise_datasets mixed_batch data_dir = Some out
       /\ map label out = [Some 1%Z; Some 0%Z].
Proof.
  split; [vm_compute; reflexivity|].
  split; [vm_compute; reflexivity|].
  eexists. split; vm_compute; reflexivity.
Qed.

End Instances.

(* ===================================================================== *)
(** * Part III.  Further properties of the code                           *)
(* ===================================================================== *)

(** ** The metric extractor: sizes *)

Section ExtractorSizes.
Context `{db : UnicodeDB}.
Import Extent.

Lemma spans_min_len (r : regex) :
  forall prev m after, spans r prev m after -> (min_len r <= length m)%nat.
Proof.
  induction r as [cs| |r1 IH1 r2 IH2|r1 IH1 r2 IH2|cs];
    simpl; intros prev m after Hsp.
  - destruct Hsp as (c & -> & _). simpl. lia.
  - lia.
  - destruct Hsp as (m1 & m2 & -> & Hs1 & Hs2).
    apply IH1 in Hs1. apply IH2 in Hs2. rewrite length_app. lia.
  - destruct Hsp as [Hsp|Hsp]; [apply IH1 in Hsp | apply IH2 in Hsp]; lia.
  - lia.
Qed.

(** The matches found by the scan do not overlap: together they take no
    more room than the text offers. *)
Lemma scan_room (r : regex) (s : list N) :
  forall pos prev skip,
    (skip <= length s)%nat ->
    (length (scan r pos prev s skip) * min_len r + skip <= length s)%nat.
Proof.
  induction s as [|c t IH]; intros pos prev skip Hskip; simpl in *.
  - lia.
  - destruct skip as [|n].
    + destruct (match_at r prev (c :: t)) as [rest|] eqn:Hm.
      * destruct (match_at_sound _ _ _ _ Hm) as (m & Hs & Hsp).
        apply spans_min_len in Hsp.
        apply (f_equal length) in Hs. rewrite length_app in Hs.
        simpl in Hs.
        replace (S (length t) - length rest)%nat with (length m) by lia.
        specialize (IH (S pos) (Some c) (length m - 1)%nat).
        simpl. nia.
      * specialize (IH (S pos) (Some c) 0%nat). lia.
    + specialize (IH (S pos) (Some c) n). lia.
Qed.

Lemma findall_room (r : regex) (text : list N) :
  (length (findall r text) * min_len r <= length text)%nat.
Proof.
  unfold findall, finditer. rewrite length_map.
  pose proof (scan_room r text 0%nat None 0%nat). lia.
Qed.

Lemma total_length_cons (ln : list N) (lns : list (list N)) :
  total_length (ln :: lns) = (length ln + total_length lns)%nat.
Proof. unfold total_length. simpl. apply total_length_from. Qed.

(** The lines are pieces of the text. *)
Lemma splitlines_from_total (n : nat) :
  forall s cur,
    (length s <= n)%nat ->
    (total_length (splitlines_from cur s) <= length cur + length s)%nat.
Proof.
  induction n as [|n IH]; intros s cur Hn.
  - destruct s; [|simpl in Hn; lia].
    simpl. destruct cur; [unfold total_length; simpl; lia|].
    rewrite total_length_cons, length_rev.
    unfold total_length. simpl. lia.
  - destruct s as [|c t].
    + simpl. destruct cur; [unfold total_length; simpl; lia|].
      rewrite total_length_cons, length_rev.
      unfold total_length. simpl. lia.
    + simpl in Hn. simpl splitlines_from.
      destruct (is_linebreak c).
      * rewrite total_length_cons, length_rev.
        assert (total_length (splitlines_from [] t) <= length t)%nat as Ht
          by (apply (IH t []); lia).
        destruct (c =? 13); [|simpl; lia].
        destruct t as [|d t']; [simpl in *; lia|].
        destruct (d =? 10); [|simpl in *; lia].
        assert (total_length (splitlines_from [] t') <= length t')%nat
          by (apply (IH t' []); simpl in *; lia).
        simpl. lia.
      * specialize (IH t (c :: cur)). simpl in *. lia.
Qed.

Lemma total_length_filter (P : list N -> Prop) `{!forall x, Decision (P x)}
    (lns : list (list N)) :
  (total_length (filter P lns) <= total_length lns)%nat.
Proof.
  induction lns as [|ln lns IH]; [reflexivity|].
  rewrite filter_cons, total_length_cons.
  destruct (decide (P ln)); [rewrite total_length_cons|]; lia.
Qed.

Lemma non_empty_total_le_text (code_text : list N) :
  (total_length (non_empty_lines code_text) <= length code_text)%nat.
Proof.
  unfold non_empty_lines.
  etransitivity; [apply total_length_filter|].
  unfold splitlines.
  apply (splitlines_from_total (length code_text) code_text []). lia.
Qed.

Lemma num_functions_sum (code_text : list N) :
  num_functions code_text
  = (length (findall pat_def code_text)
     + length (findall pat_function code_text)
     + length (findall pat_clike code_text))%nat.
Proof. reflexivity. Qed.

End ExtractorSizes.

(** X1.  No count exceeds what the text has room for: [loc] is at most the
    number of characters, the complexity estimate counts at most one token
    for every two characters, [num_functions] at most one signature for
    every two characters (each pattern needs six or more), and [num_todos]
    at most one tag for every four. *)
Theorem metrics_bounded_by_text_length (db : UnicodeDB) (code_text : list N) :
  exists loc f c t : nat,
    analyze_code code_text !! "loc" = Some (float_of_nat loc)
    /\ analyze_code code_text !! "num_functions" = Some (float_of_nat f)
    /\ analyze_code code_text !! "cyclomatic_complexity_estimate"
       = Some (float_of_nat c + 1)%Q
    /\ analyze_code code_text !! "num_todos" = Some (float_of_nat t)
    /\ (loc <= length code_text)%nat
    /\ (2 * f <= length code_text)%nat
    /\ (2 * c <= length code_text)%nat
    /\ (4 * t <= length code_text)%nat.
Proof.
  exists (length (non_empty_lines code_text)), (num_functions code_text),
         (length (complexity_tokens code_text)), (num_todos code_text).
  repeat (split; [reflexivity|]).
  split.
  { pose proof (total_length_lower _ (non_empty_lines_truthy code_text)).
    pose proof (non_empty_total_le_text code_text). lia. }
  split.
  { rewrite num_functions_sum.
    pose proof (findall_room pat_def code_text) as H1.
    pose proof (findall_room pat_function code_text) as H2.
    pose proof (findall_room pat_clike code_text) as H3.
    change (Extent.min_len pat_def) with 6%nat in H1.
    change (Extent.min_len pat_function) with 11%nat in H2.
    change (Extent.min_len pat_clike) with 6%nat in H3.
    lia. }
  split.
  { pose proof (findall_room CONTROL_KEYWORDS code_text) as H1.
    change (Extent.min_len CONTROL_KEYWORDS) with 2%nat in H1.
    unfold complexity_tokens. lia. }
  pose proof (findall_room pat_todo code_text) as H1.
  change (Extent.min_len pat_todo) with 4%nat in H1.
  unfold num_todos. lia.
Qed.

(** The summed length of lines that are all of a length between two
    bounds. *)
Lemma total_length_between (lo hi : nat) (lns : list (list N)) :
  (forall ln, ln ∈ lns -> (lo <= length ln <= hi)%nat) ->
  (lo * length lns <= total_length lns <= hi * length lns)%nat.
Proof.
  induction lns as [|ln lns IH]; intros Hall.
  - unfold total_length. simpl. lia.
  - rewrite total_length_cons. cbn [length].
    assert (lo <= length ln <= hi)%nat as Hln by (apply Hall; left).
    assert (lo * length lns <= total_length lns <= hi * length lns)%nat
      as Hrest by (apply IH; intros ln' Hin; apply Hall; right; exact Hin).
    lia.
Qed.

(** X2.  [avg_line_length] lies between the lengths of the shortest and
    of the longest of the lines [loc] counts: when each of these lines
    has at least [lo] and at most [hi] characters, so has their average.
    Hence it is their common length when they are equally long, it is at
    least 1 as soon as there is such a line, and it is never more than
    the length of the text. *)
Theorem avg_line_length_within_line_lengths
    (db : UnicodeDB) (code_text : list N) :
  let lns := non_empty_lines code_text in
  analyze_code code_text !! "loc" = Some (float_of_nat (length lns))
  /\ analyze_code code_text !! "avg_line_length"
     = Some (avg_line_length code_text)
  /\ (forall lo hi : nat,
        lns <> [] ->
        (forall ln, ln ∈ lns -> (lo <= length ln <= hi)%nat) ->
        (float_of_nat lo <= avg_line_length code_text)%Q
        /\ (avg_line_length code_text <= float_of_nat hi)%Q)
  /\ (forall len : nat,
        lns <> [] ->
        (forall ln, ln ∈ lns -> length ln = len) ->
        avg_line_length code_text == float_of_nat len)
  /\ (lns <> [] -> 1 <= avg_line_length code_text)%Q
  /\ (avg_line_length code_text <= float_of_nat (length code_text))%Q.
Proof.
  intros lns. split; [reflexivity|]. split; [reflexivity|].
  assert (forall lo hi : nat,
            lns <> [] ->
            (forall ln, ln ∈ lns -> (lo <= length ln <= hi)%nat) ->
            (float_of_nat lo <= avg_line_length code_text)%Q
            /\ (avg_line_length code_text <= float_of_nat hi)%Q) as Hbetween.
  { intros lo hi Hne Hall.
    pose proof (total_length_between lo hi lns Hall) as [Hlo Hhi].
    unfold avg_line_length. fold lns.
    destruct lns as [|ln lns'] eqn:E; [congruence|].
    set (n := length (ln :: lns')) in *.
    set (t := total_length (ln :: lns')) in *.
    assert (1 <= n)%nat as Hn by (unfold n; simpl; lia).
    assert (0 < float_of_nat n)%Q as Hnpos.
    { unfold float_of_nat, Qlt. simpl. lia. }
    split.
    - apply Qle_shift_div_l; [exact Hnpos|].
      unfold float_of_nat. rewrite <- inject_Z_mult, <- Zle_Qle. lia.
    - apply Qle_shift_div_r; [exact Hnpos|].
      unfold float_of_nat. rewrite <- inject_Z_mult, <- Zle_Qle. lia. }
  split; [exact Hbetween|].
  split.
  { intros len Hne Hall. apply Qle_antisym; apply (Hbetween len len Hne);
      intros ln Hin; rewrite (Hall ln Hin); lia. }
  pose proof (total_length_lower _ (non_empty_lines_truthy code_text)) as Hlow.
  pose proof (non_empty_total_le_text code_text) as Hup.
  fold lns in Hlow, Hup.
  unfold avg_line_length. fold lns.
  destruct lns as [|ln lns'] eqn:E.
  - split; [congruence|]. apply float_of_nat_nonneg.
  - set (n := length (ln :: lns')) in *. set (t := total_length (ln :: lns')) in *.
    assert (1 <= n)%nat as Hn by (unfold n; simpl; lia).
    assert (0 < float_of_nat n)%Q as Hnpos.
    { unfold float_of_nat, Qlt. simpl. lia. }
    split.
    { intros _. apply Qle_shift_div_l; [exact Hnpos|].
      rewrite Qmult_1_l. apply float_of_nat_le. lia. }
    apply Qle_shift_div_r; [exact Hnpos|].
    apply (Qle_trans _ (float_of_nat (length code_text) * 1)).
    + rewrite Qmult_1_r. apply float_of_nat_le. lia.
    + apply Qmult_le_l.
      * pose proof (float_of_nat_nonneg (length code_text)) as H0.
        apply Qle_lteq in H0. destruct H0 as [H0|H0]; [exact H0|].
        exfalso. assert (t = 0%nat) as Ht.
        { assert (length code_text = 0%nat).
          { unfold float_of_nat, Qeq in H0. simpl in H0. lia. }
          lia. }
        lia.
      * unfold float_of_nat, Qle. simpl. lia.
Qed.

(** ** The metric extractor: what the patterns need *)

Section ExtractorPatterns.
Context `{db : UnicodeDB}.

(** A pattern that opens with [\b] finds nothing where there is no word
    character. *)
Lemma scan_without_words (r : regex) (s : list N) :
  forall pos prev skip,
    word_of prev = false ->
    Forall (fun c => isword c = false) s ->
    scan (Seq Boundary r) pos prev s skip = [].
Proof.
  induction s as [|c t IH]; intros pos prev skip Hprev Hall; [reflexivity|].
  apply Forall_cons in Hall as [Hc Ht].
  simpl. destruct skip as [|n]; [|apply IH; assumption].
  unfold match_at. simpl. unfold at_boundary. simpl.
  rewrite Hprev, Hc. simpl. apply IH; assumption.
Qed.

Lemma findall_without_words (r : regex) (text : list N) :
  Forall (fun c => isword c = false) text ->
  findall (Seq Boundary r) text = [].
Proof.
  intros Hall. unfold findall, finditer.
  rewrite scan_without_words by (reflexivity || assumption). reflexivity.
Qed.

(** The scan misses nothing: if the pattern matches somewhere past the
    positions to be skipped, the scan reports at least one match. *)
Lemma scan_finds (r : regex) (s1 : list N) :
  forall (s2 pre : list N) (skip : nat),
    (skip <= length s1)%nat ->
    s2 <> [] ->
    is_Some (match_at r (last (pre ++ s1)) s2) ->
    scan r (length pre) (last pre) (s1 ++ s2) skip <> [].
Proof.
  induction s1 as [|a s1 IH]; intros s2 pre skip Hskip Hne Hm.
  - destruct s2 as [|c t]; [congruence|].
    simpl in Hskip. assert (skip = 0%nat) as -> by lia.
    rewrite app_nil_r in Hm. destruct Hm as [rest Hm].
    simpl. rewrite Hm. discriminate.
  - assert (forall skip', (skip' <= length s1)%nat ->
              scan r (S (length pre)) (Some a) (s1 ++ s2) skip' <> [])
      as Hnext.
    { intros skip' Hs'. specialize (IH s2 (pre ++ [a]) skip' Hs' Hne).
      rewrite length_app, last_snoc, <- app_assoc in IH. simpl in IH.
      rewrite Nat.add_1_r in IH. apply IH. exact Hm. }
    simpl in *. destruct skip as [|n]; [|apply Hnext; lia].
    destruct (match_at r (last pre) (a :: s1 ++ s2)); [discriminate|].
    apply Hnext. lia.
Qed.

(** A literal word under IGNORECASE reads any text whose characters it
    accepts one by one. *)
Lemma rmatch_Str_of_CLitI (pat : list N) :
  pat <> [] ->
  forall (w rest : list N) (k : cont) prev,
    Forall2 (fun a c => cset_mem (CLitI a) c = true) pat w ->
    rmatch (Str_of CLitI pat) k prev (w ++ rest)
    = k (prev_after prev w) rest.
Proof.
  induction pat as [|a pat IH]; intros Hne w rest k prev Hall; [congruence|].
  destruct w as [|c w]; [inversion Hall|].
  apply Forall2_cons in Hall as [Hc Hall].
  destruct pat as [|b pat].
  - apply Forall2_nil_inv_l in Hall. subst w.
    cbn [rmatch Str_of app]. rewrite Hc. reflexivity.
  - change (Str_of CLitI (a :: b :: pat))
      with (Seq (Chr (CLitI a)) (Str_of CLitI (b :: pat))).
    cbn [rmatch app]. rewrite Hc.
    rewrite (IH ltac:(discriminate) w rest k (Some c) Hall).
    f_equal. change (c :: w) with ([c] ++ w). rewrite prev_after_app.
    reflexivity.
Qed.

Lemma ascii_letter_is_word (c : N) :
  is_ascii c = true -> in_range 97 122 (tolower c) = true ->
  isword c = true.
Proof.
  unfold isword, tolower, is_ascii, in_range. intros -> Hl.
  destruct (65 <=? c) eqn:H1, (c <=? 90) eqn:H2; simpl in *;
    try (rewrite Hl; rewrite ?orb_true_r; reflexivity).
  - rewrite ?orb_true_r. reflexivity.
Qed.

End ExtractorPatterns.

(** X3.  A text without any word character (blank text, punctuation,
    operators alone) gets the baseline: no function, complexity 1.0, no
    tag; every pattern of the extractor opens with [\b], which needs a
    word character next to it. *)
Theorem text_without_words_gets_baseline (db : UnicodeDB) (code_text : list N) :
  Forall (fun c => isword c = false) code_text ->
  analyze_code code_text !! "num_functions" = Some 0%Q
  /\ analyze_code code_text !! "cyclomatic_complexity_estimate" = Some 1%Q
  /\ analyze_code code_text !! "num_todos" = Some 0%Q.
Proof.
  intros Hall.
  assert (num_functions code_text = 0%nat) as Hf.
  { unfold num_functions, function_patterns, pat_def, pat_function, pat_clike.
    simpl fold_left. rewrite !findall_without_words by exact Hall.
    reflexivity. }
  assert (complexity_tokens code_text = []) as Hc.
  { unfold complexity_tokens, CONTROL_KEYWORDS.
    apply findall_without_words, Hall. }
  assert (num_todos code_text = 0%nat) as Ht.
  { unfold num_todos, pat_todo.
    rewrite findall_without_words by exact Hall. reflexivity. }
  unfold analyze_code, cyclomatic_complexity_estimate.
  rewrite Hf, Hc, Ht. repeat split; reflexivity.
Qed.

(** X4.  A TODO or FIXME tag is counted whatever the case of its letters,
    provided no word character touches it: a text that holds such a tag
    has [num_todos] at least 1. *)
Theorem tags_are_counted_in_any_case
    (db : UnicodeDB) (pre w post : list N) :
  map tolower w = lit "todo" \/ map tolower w = lit "fixme" ->
  forallb is_ascii w = true ->
  word_of (last pre) = false ->
  word_of (head post) = false ->
  exists t : nat,
    analyze_code (pre ++ w ++ post) !! "num_todos" = Some (float_of_nat t)
    /\ (1 <= t)%nat.
Proof.
  intros Hw Hascii Hpre Hpost.
  exists (num_todos (pre ++ w ++ post)). split; [reflexivity|].
  assert (exists c w', w = c :: w' /\ isword c = true
                       /\ word_of (prev_after (last pre) w) = true)
    as (c0 & w' & Hcons & Hfirst & Hlast).
  { assert (Forall (fun c => isword c = true) w) as Hletters.
    { assert (Forall (fun l => in_range 97 122 l = true) (map tolower w))
        as Hrange by (destruct Hw as [-> | ->]; repeat constructor).
      clear Hw. induction w as [|c w IH]; [constructor|].
      simpl in Hascii. apply andb_true_iff in Hascii as [Hc Hascii].
      simpl in Hrange. apply Forall_cons in Hrange as [Hr Hrange].
      constructor; [|apply IH; assumption].
      apply ascii_letter_is_word; [exact Hc | exact Hr]. }
    destruct w as [|c w']; [destruct Hw; discriminate|].
    exists c, w'. split; [reflexivity|].
    split; [apply Forall_cons in Hletters; tauto|].
    unfold prev_after.
    destruct (last (c :: w')) as [z|] eqn:Hz.
    - apply last_Some_elem_of in Hz.
      rewrite Forall_forall in Hletters. apply Hletters, Hz.
    - apply last_None in Hz. discriminate. }
  assert (is_Some (match_at pat_todo (last pre) (w ++ post))) as Hm.
  { unfold match_at, pat_todo.
    set (k := rmatch Boundary (fun _ t => Some t)).
    change (is_Some
              (if at_boundary (last pre) (w ++ post)
               then match rmatch (StrI "TODO") k (last pre) (w ++ post) with
                    | Some x => Some x
                    | None => rmatch (StrI "FIXME") k (last pre) (w ++ post)
                    end
               else None)).
    assert (at_boundary (last pre) (w ++ post) = true) as ->.
    { rewrite Hcons. unfold at_boundary. simpl. rewrite Hpre, Hfirst.
      reflexivity. }
    assert (at_boundary (prev_after (last pre) w) post = true) as Hend.
    { unfold at_boundary. rewrite Hlast, Hpost. reflexivity. }
    assert (forall pat, pat <> [] ->
              Forall2 (fun a c => cset_mem (CLitI a) c = true) pat w ->
              rmatch (Str_of CLitI pat) k (last pre) (w ++ post)
              = Some post) as Hword.
    { intros pat Hne Hall. rewrite rmatch_Str_of_CLitI by assumption.
      unfold k. simpl. rewrite Hend. reflexivity. }
    clear Hcons. destruct Hw as [Hw|Hw].
    - unfold StrI. rewrite (Hword (lit "TODO")); [eauto|discriminate|].
      do 5 (destruct w as [|? w]; try discriminate).
      injection Hw as H1 H2 H3 H4.
      repeat constructor; simpl; rewrite ?H1, ?H2, ?H3, ?H4; reflexivity.
    - destruct (rmatch (StrI "TODO") k (last pre) (w ++ post)); [eauto|].
      unfold StrI. rewrite (Hword (lit "FIXME")); [eauto|discriminate|].
      do 6 (destruct w as [|? w]; try discriminate).
      injection Hw as H1 H2 H3 H4 H5.
      repeat constructor; simpl;
        rewrite ?H1, ?H2, ?H3, ?H4, ?H5; reflexivity. }
  unfold num_todos, findall, finditer. rewrite length_map.
  assert (w ++ post <> []) as Hne by (rewrite Hcons; discriminate).
  pose proof (scan_finds pat_todo pre (w ++ post) [] 0%nat
                ltac:(lia) Hne Hm) as Hscan.
  simpl in Hscan.
  destruct (scan pat_todo 0 None (pre ++ w ++ post) 0); [congruence|].
  simpl. lia.
Qed.

Lemma metrics_to_features_rows (metrics : gmap string Q) :
  rows (metrics_to_features metrics)
  = [map (fun name => Some (default 0%Q (metrics !! name))) FEATURE_COLUMNS].
Proof.
  unfold metrics_to_features, frame_of_row. cbn [rows].
  apply (f_equal (fun row => [row])).
  apply list_fmap_ext. intros i name Hi.
  apply (schema_row_lookup (fun name => default 0%Q (metrics !! name))).
  eapply list_elem_of_lookup_2, Hi.
Qed.

(** X5.  Fed with the dictionary of [analyze_code], the vectorizer passes
    all six metrics through, in schema order; no entry falls back to the
    default. *)
Theorem features_of_analysis_are_the_metrics
    (db : UnicodeDB) (code_text : list N) :
  columns (metrics_to_features (analyze_code code_text)) = FEATURE_COLUMNS
  /\ rows (metrics_to_features (analyze_code code_text))
     = [[Some (float_of_nat (length (non_empty_lines code_text)));
         Some (float_of_nat (num_comments code_text));
         Some (float_of_nat (num_functions code_text));
         Some (cyclomatic_complexity_estimate code_text);
         Some (avg_line_length code_text);
         Some (float_of_nat (num_todos code_text))]]
  /\ rows (metrics_to_features (analyze_code code_text))
     = [map (fun name => analyze_code code_text !! name) FEATURE_COLUMNS].
Proof.
  split; [reflexivity|].
  rewrite metrics_to_features_rows. split; reflexivity.
Qed.

(** ** The dataset ingestor: what a mapped source looks like *)

Section MappedFrames.
Context `{cv : Conversions}.
Import Frames.

(** The six cells of a row, whatever the five computed values. *)
Lemma build_row_features (a b c d : float) (e : option Z) :
  features (build_row a b c d e) = [a; b; Fin 0; c; d; Fin 0].
Proof. reflexivity. Qed.

Lemma mapped_row_built (df : RawFrame)
    (n_f loc_1 loc_f lOComment_f v_g_f : list float) (lbl : list Z)
    (p : place) :
  exists a b c d e,
    mapped_row df n_f loc_1 loc_f lOComment_f v_g_f lbl p
    = build_row a b c d e.
Proof. unfold mapped_row. eauto 10. Qed.

(** The row of a frame in step with its source. *)
Lemma map_Ok_in_step (df : RawFrame) (fr : Frame) :
  in_step_with_source df ->
  _map_promise_to_features df = Ok fr ->
  exists label_col loc v_g n_f loc_1 loc_f lOComment_f v_g_f lbl,
    resolve_label df = Ok label_col
    /\ first_present df ["loc"; "lOCode"; "locCodeAndComment"] = Some loc
    /\ first_present df ["v(g)"; "branchCount"] = Some v_g
    /\ cast cell_float
         (default (replicate (nrows df) (CFloat (Fin 0))) (get df "n"))
       = Ok n_f
    /\ cast cell_float (map replace_0_1 loc) = Ok loc_1
    /\ cast cell_float loc = Ok loc_f
    /\ cast cell_float
         (default (replicate (nrows df) (CFloat (Fin 0)))
            (get df "lOComment"))
       = Ok lOComment_f
    /\ cast cell_float v_g = Ok v_g_f
    /\ label_col = map Some lbl
    /\ length fr = nrows df
    /\ forall i r,
         fr !! i = Some r ->
         (i < nrows df)%nat
         /\ r = build_row (float_at loc_f (Some i))
                  (float_at lOComment_f (Some i))
                  (float_at v_g_f (Some i))
                  (fdiv (float_at n_f (Some i)) (float_at loc_1 (Some i)))
                  (lbl !! i).
Proof.
  intros Hstep Hmap. apply map_Ok_steps in Hmap
    as (label_col & loc & v_g & n_f & loc_1 & loc_f & lOComment_f & v_g_f
        & lbl & places & Hlabel & Hloc & Hvg & Hnf & Hloc1 & Hlocf & Hcom
        & Hvgf & Hlbl & Hplaces & ->).
  rewrite (frame_layout_in_step df Hstep) in Hplaces.
  injection Hplaces as <-.
  exists label_col, loc, v_g, n_f, loc_1, loc_f, lOComment_f, v_g_f, lbl.
  repeat (split; [assumption|]).
  split.
  { rewrite length_map. unfold in_step. rewrite length_map, length_seq.
    reflexivity. }
  intros i r Hr. unfold PromiseIngest.Frame in *.
  rewrite list_lookup_fmap in Hr.
  destruct (in_step (nrows df) !! i) as [p|] eqn:Hp; [|discriminate].
  apply in_step_lookup in Hp as [Hlt ->]. injection Hr as <-.
  split; [exact Hlt | apply mapped_row_in_step].
Qed.

Lemma load_promise_datasets_rows (files : gmap (list N) csvfile)
    (base_dir : list N) (out : Frame) (r : Row) :
  load_promise_datasets files base_dir = Some out ->
  r ∈ out ->
  complete r = true
  /\ exists name df fr,
       name ∈ PROMISE_FILENAMES
       /\ files !! path_join base_dir name = Some (Parsed df)
       /\ _map_promise_to_features df = Ok fr
       /\ r ∈ fr.
Proof.
  unfold load_promise_datasets.
  destruct (omap (load_source files base_dir) PROMISE_FILENAMES)
    as [|fr0 frs] eqn:Ho; [discriminate|].
  intros [= <-] Hr. unfold dropna in Hr.
  apply list_elem_of_filter in Hr as [Hnan Hr]. split; [exact Hnan|].
  apply list_elem_of_In in Hr.
  change (In r (concat (fr0 :: frs))) in Hr.
  apply in_concat in Hr as (fr & Hfr & Hr).
  apply list_elem_of_In in Hfr, Hr. rewrite <- Ho in Hfr.
  apply list_elem_of_omap in Hfr as (name & Hname & Hsrc).
  unfold load_source in Hsrc.
  destruct (files !! path_join base_dir name) as [[|df]|] eqn:Hf;
    try discriminate.
  destruct (_map_promise_to_features df) as [fr'|] eqn:Hmap;
    [|discriminate].
  injection Hsrc as ->. exists name, df, fr. auto.
Qed.

(** The labels a [defects] column resolves to. *)
Lemma defects_labels (df : RawFrame) (lbl : list Z) (l : Z) :
  has_column df "defects" = true ->
  resolve_label df = Ok (map Some lbl) ->
  l ∈ lbl ->
  l = 0%Z \/ l = 1%Z.
Proof.
  intros Hd Hlabel Hl. apply has_column_get in Hd as (defects & Hd).
  unfold resolve_label in Hlabel. rewrite Hd in Hlabel.
  injection Hlabel as Hlabel.
  assert (Some l ∈ map Some lbl) as Hin
    by (apply (list_elem_of_fmap_2 Some), Hl).
  rewrite <- Hlabel in Hin.
  apply list_elem_of_fmap in Hin as (cl & Heq & _).
  unfold label_map in Heq.
  repeat case_decide; inversion Heq; auto.
Qed.

End MappedFrames.

(** X6.  Every row [load_promise_datasets] returns has exactly six
    features, with 0.0 under [num_functions] and under [num_todos], and no
    NaN among them. *)
Theorem ingested_rows_fit_the_schema
    (cv : Conversions) (files : gmap (list N) csvfile) (base_dir : list N)
    (out : Frame) (r : Row) :
  load_promise_datasets files base_dir = Some out ->
  r ∈ out ->
  length (features r) = length FEATURE_COLUMNS
  /\ features r !! index_of "num_functions" FEATURE_COLUMNS = Some (Fin 0)
  /\ features r !! index_of "num_todos" FEATURE_COLUMNS = Some (Fin 0)
  /\ Forall (fun x => x <> NaN) (features r).
Proof.
  intros Hload Hr.
  destruct (load_promise_datasets_rows _ _ _ _ Hload Hr)
    as (Hnan & name & df & fr & _ & _ & Hmap & Hin).
  apply map_Ok_steps in Hmap
    as (? & ? & ? & n_f & loc_1 & loc_f & lOComment_f & v_g_f & lbl & places
        & _ & _ & _ & _ & _ & _ & _ & _ & _ & _ & ->).
  apply list_elem_of_fmap in Hin as (p & -> & _).
  destruct (mapped_row_built df n_f loc_1 loc_f lOComment_f v_g_f lbl p)
    as (a & b & c & d & e & Hbuilt).
  rewrite Hbuilt in *. unfold complete in Hnan. apply andb_true_iff in Hnan as [Hnan _].
  rewrite build_row_features in *.
  repeat (split; [reflexivity|]).
  apply Forall_forall. intros v Hv ->.
  rewrite forallb_forall in Hnan.
  apply list_elem_of_In, Hnan in Hv. discriminate.
Qed.

(** X7.  When the source has a [defects] column, every label of the mapped
    frame is 0 or 1, or is missing (NaN).  None is missing where the
    columns of the mapped frame are in step (the rows of the source are
    numbered, or it has both [lOComment] and [n]), and none is missing
    after [dropna]: every row the ingestor keeps of such a source is
    labelled 0 or 1. *)
Theorem defects_labels_are_binary
    (cv : Conversions) (df : RawFrame) (fr : Frame) (r : Row) :
  has_column df "defects" = true ->
  _map_promise_to_features df = Ok fr ->
  r ∈ fr ->
  (label r = None \/ label r = Some 0%Z \/ label r = Some 1%Z)
  /\ (Frames.in_step_with_source df -> Frames.well_formed df ->
      label r = Some 0%Z \/ label r = Some 1%Z)
  /\ (r ∈ dropna fr -> label r = Some 0%Z \/ label r = Some 1%Z).
Proof.
  intros Hd Hmap Hr.
  destruct (map_Ok_labels df fr Hmap) as (lbls & Hlabel & Hrows & Hall).
  assert (label r = None \/ label r = Some 0%Z \/ label r = Some 1%Z)
    as Hcases.
  { destruct (Hrows r Hr) as [Hnone|(l & Hl & Hsome)]; [auto|].
    right. rewrite Hsome.
    destruct (defects_labels df lbls l Hd Hlabel Hl) as [->| ->]; auto. }
  split; [exact Hcases|]. split.
  - intros Hstep Hwf. specialize (Hall Hstep Hwf).
    destruct Hcases as [Hnone|Hcases]; [|exact Hcases]. exfalso.
    assert (label r ∈ map label fr) as Hin
      by (apply (list_elem_of_fmap_2 label), Hr).
    rewrite Hall, Hnone in Hin.
    apply list_elem_of_fmap in Hin as (? & ? & _). discriminate.
  - intros Hkept. unfold dropna in Hkept.
    apply list_elem_of_filter in Hkept as [Hc _].
    unfold complete in Hc. apply andb_true_iff in Hc as [_ Hc].
    destruct Hcases as [Hnone|Hcases]; [|exact Hcases].
    rewrite Hnone in Hc. discriminate.
Qed.

(** X8.  One value in [defects] that is neither true nor false (in any
    letter case) makes the mapping of the whole source raise, so the
    ingestor drops the file, not just the row. *)
Theorem odd_defects_value_fails_the_source
    (cv : Conversions) (files : gmap (list N) csvfile)
    (base_dir name : list N) (df : RawFrame) (defects : list cell)
    (c : cell) :
  files !! path_join base_dir name = Some (Parsed df) ->
  get df "defects" = Some defects ->
  c ∈ defects ->
  label_map (lower (cell_str c)) = None ->
  (exists e, _map_promise_to_features df = Raise e)
  /\ load_source files base_dir name = None
  /\ source_failed files base_dir name = true.
Proof.
  intros Hfile Hd Hc Hodd.
  assert (exists e, _map_promise_to_features df = Raise e) as [e He].
  { destruct (_map_promise_to_features df) as [fr|e] eqn:Hmap; [|eauto].
    exfalso. apply map_Ok_steps in Hmap
      as (label_col & ? & ? & ? & ? & ? & ? & ? & lbl & ? & Hlabel & _ & _
          & _ & _ & _ & _ & _ & -> & _).
    unfold resolve_label in Hlabel. rewrite Hd in Hlabel.
    injection Hlabel as Hlabel.
    assert (None ∈ map Some lbl) as Hin.
    { rewrite <- Hlabel, <- Hodd.
      apply (list_elem_of_fmap_2 (fun c => label_map (lower (cell_str c)))).
      exact Hc. }
    apply list_elem_of_fmap in Hin as (? & ? & _). discriminate. }
  assert (load_source files base_dir name = None) as Hsrc
    by (unfold load_source; rewrite Hfile, He; reflexivity).
  split; [eauto|]. split; [exact Hsrc|].
  unfold source_failed. rewrite Hfile, Hsrc. reflexivity.
Qed.

(** X9.  A source is mapped only if it has a label column ([defects] or
    [label]), one of the three line-count columns and one of the two
    complexity columns; with a label column but no line-count column the
    error is the one about [loc], and with both but no complexity column
    the one about [v(g)]. *)
Theorem mapping_needs_its_columns (cv : Conversions) (df : RawFrame) :
  (forall fr,
     _map_promise_to_features df = Ok fr ->
     (has_column df "defects" = true \/ has_column df "label" = true)
     /\ (has_column df "loc" = true \/ has_column df "lOCode" = true
         \/ has_column df "locCodeAndComment" = true)
     /\ (has_column df "v(g)" = true
         \/ has_column df "branchCount" = true))
  /\ (has_column df "defects" = true ->
      has_column df "loc" = false -> has_column df "lOCode" = false ->
      has_column df "locCodeAndComment" = false ->
      _map_promise_to_features df
      = Raise (ValueError
                 "PROMISE dataset missing a loc column (e.g., 'loc')"))
  /\ (has_column df "defects" = true ->
      has_column df "loc" = true ->
      has_column df "v(g)" = false -> has_column df "branchCount" = false ->
      _map_promise_to_features df
      = Raise (ValueError
                 "PROMISE dataset missing complexity column 'v(g)' or 'branchCount'")).
Proof.
  assert (forall name, has_column df name = true \/ get df name = None)
    as Hcol.
  { intros name. destruct (has_column df name) eqn:Hc; [auto|].
    right. apply has_column_get, Hc. }
  split.
  { intros fr Hmap. apply map_Ok_steps in Hmap
      as (label_col & loc & v_g & ? & ? & ? & ? & ? & ? & ? & Hlabel & Hloc
          & Hvg & _).
    split.
    { unfold resolve_label in Hlabel.
      destruct (Hcol "defects") as [?|Hd]; [auto|]. rewrite Hd in Hlabel.
      destruct (Hcol "label") as [?|Hl]; [auto|]. rewrite Hl in Hlabel.
      discriminate. }
    split.
    { simpl in Hloc.
      destruct (Hcol "loc") as [?|H1]; [auto|]. rewrite H1 in Hloc.
      destruct (Hcol "lOCode") as [?|H2]; [auto|]. rewrite H2 in Hloc.
      destruct (Hcol "locCodeAndComment") as [?|H3]; [auto|].
      rewrite H3 in Hloc. discriminate. }
    simpl in Hvg.
    destruct (Hcol "v(g)") as [?|H1]; [auto|]. rewrite H1 in Hvg.
    destruct (Hcol "branchCount") as [?|H2]; [auto|]. rewrite H2 in Hvg.
    discriminate. }
  split.
  { intros Hd H1 H2 H3.
    apply has_column_get in Hd as (defects & Hd).
    apply has_column_get in H1, H2, H3.
    unfold _map_promise_to_features, resolve_label. simpl first_present.
    rewrite Hd, H1, H2, H3. reflexivity. }
  intros Hd Hloc H1 H2.
  apply has_column_get in Hd as (defects & Hd).
  apply has_column_get in Hloc as (loc & Hloc).
  apply has_column_get in H1, H2.
  unfold _map_promise_to_features, resolve_label. simpl first_present.
  rewrite Hd, Hloc, H1, H2. reflexivity.
Qed.

(** X10.  [avg_line_length] is derived, not read, and a module without
    code lines does not make it infinite or NaN.  On a row of a frame in
    step with its source, whose [loc] is an integer from 0 to 2^53 and
    whose [n] is an integer up to 2^53 in size (or absent, which counts
    as 0.0), the [loc] feature is the line count itself and the
    [avg_line_length] feature is a finite number, [n / max(loc, 1)] up to
    the rounding of one division: it is that quotient exactly where
    [max(loc, 1)] divides [n] (so it is [n] itself for [loc] 0 or 1), it
    has the sign of [n], and times [max(loc, 1)] it misses [n] by no more
    than [|n| / 2^53]. *)
Theorem avg_line_length_is_n_over_loc
    (cv : Conversions) (df : RawFrame) (fr : Frame)
    (loc : list cell) (i : nat) (r : Row) (z n : Z) :
  Frames.in_step_with_source df ->
  _map_promise_to_features df = Ok fr ->
  fr !! i = Some r ->
  first_present df ["loc"; "lOCode"; "locCodeAndComment"] = Some loc ->
  loc !! i = Some (CInt z) ->
  (0 <= z <= 2 ^ 53)%Z ->
  (- 2 ^ 53 <= n <= 2 ^ 53)%Z ->
  (match get df "n" with
   | Some n_total => n_total !! i = Some (CInt n)
   | None => n = 0%Z
   end) ->
  features r !! index_of "loc" FEATURE_COLUMNS = Some (Fin (inject_Z z))
  /\ exists q,
       features r !! index_of "avg_line_length" FEATURE_COLUMNS
       = Some (Fin q)
       /\ ((Z.max z 1 | n)%Z -> q == inject_Z (n / Z.max z 1))
       /\ ((z <= 1)%Z -> q == inject_Z n)
       /\ ((0 <= n)%Z -> 0 <= q)%Q
       /\ ((n <= 0)%Z -> q <= 0)%Q
       /\ (Qabs (q * inject_Z (Z.max z 1) - inject_Z n)
           <= Qabs (inject_Z n) / inject_Z (2 ^ 53))%Q.
Proof.
  intros Hstep Hmap Hr Hloc Hz Hpos Hsize Hn.
  destruct (map_Ok_in_step df fr Hstep Hmap)
    as (? & loc' & ? & n_f & loc_1 & loc_f & ? & ? & ? & _ & Hloc' & _ & Hnf
        & Hloc1 & Hlocf & _ & _ & _ & _ & Hrows).
  rewrite Hloc in Hloc'. injection Hloc' as <-.
  destruct (Hrows i r Hr) as [Hlt ->]. clear Hrows.
  rewrite build_row_features.
  apply cast_Ok_Forall2 in Hlocf, Hloc1, Hnf.
  destruct (Forall2_lookup_l _ _ _ _ _ Hlocf Hz) as (fl & Hfli & Hfl).
  simpl in Hfl. injection Hfl as <-.
  assert (map replace_0_1 loc !! i = Some (replace_0_1 (CInt z))) as Hz1
    by (rewrite list_lookup_fmap, Hz; reflexivity).
  destruct (Forall2_lookup_l _ _ _ _ _ Hloc1 Hz1) as (l1 & Hl1i & Hl1).
  assert (l1 = Fin (inject_Z (Z.max z 1))) as ->.
  { destruct z as [|p|p]; [| |lia]; simpl in Hl1.
    - injection Hl1 as <-. reflexivity.
    - injection Hl1 as <-. f_equal. f_equal. lia. }
  assert (exists q, n_f !! i = Some (Fin q) /\ q == inject_Z n)
    as (qn & Hnfi & Hqn).
  { destruct (get df "n") as [n_total|]; simpl in Hnf.
    - destruct (Forall2_lookup_l _ _ _ _ _ Hnf Hn) as (nf & Hnfi & Hfn).
      simpl in Hfn. injection Hfn as <-. eexists. split; [exact Hnfi|].
      reflexivity.
    - subst n.
      assert (replicate (nrows df) (CFloat (Fin 0)) !! i
              = Some (CFloat (Fin 0))) as Hrep
        by (apply lookup_replicate; auto).
      destruct (Forall2_lookup_l _ _ _ _ _ Hnf Hrep) as (nf & Hnfi & Hfn).
      simpl in Hfn. injection Hfn as <-. eexists. split; [exact Hnfi|].
      reflexivity. }
  unfold float_at, cell_at. cbn [mbind option_bind].
  rewrite Hfli, Hl1i, Hnfi. cbn [default from_option id].
  split; [reflexivity|].
  set (m := Z.max z 1) in *.
  assert (1 <= m)%Z as Hm by (unfold m; lia).
  assert (0 < inject_Z m)%Q as Hmpos.
  { unfold Qlt. simpl. lia. }
  assert (~ inject_Z m == 0) as Hm0.
  { intros Heq. rewrite Heq in Hmpos. exact (Qlt_irrefl _ Hmpos). }
  assert (Qeq_bool (inject_Z m) 0 = false) as Hmb.
  { apply not_true_is_false. intros Heq. apply Qeq_bool_iff in Heq.
    exact (Hm0 Heq). }
  cbn [fdiv]. rewrite Hmb.
  exists (qn / inject_Z m)%Q. cbn [index_of FEATURE_COLUMNS String.eqb].
  split; [reflexivity|].
  assert (qn / inject_Z m * inject_Z m == inject_Z n)%Q as Hexact.
  { rewrite Hqn. unfold Qdiv. rewrite <- Qmult_assoc.
    rewrite (Qmult_comm (/ inject_Z m)), Qmult_inv_r by exact Hm0.
    apply Qmult_1_r. }
  split.
  { intros [k Hk]. rewrite Hk, Z.div_mul by lia.
    rewrite Hqn, Hk, inject_Z_mult. unfold Qdiv.
    rewrite <- Qmult_assoc, Qmult_inv_r by exact Hm0. apply Qmult_1_r. }
  split.
  { intros Hle. assert (m = 1%Z) as -> by (unfold m; lia).
    rewrite Hqn. unfold Qdiv. change (/ inject_Z 1)%Q with 1%Q.
    apply Qmult_1_r. }
  split.
  { intros Hn0. apply Qle_shift_div_l; [exact Hmpos|].
    rewrite Qmult_0_l, Hqn. unfold Qle. simpl. lia. }
  split.
  { intros Hn0. apply Qle_shift_div_r; [exact Hmpos|].
    rewrite Qmult_0_l, Hqn. unfold Qle. simpl. lia. }
  rewrite Hexact.
  assert (inject_Z n - inject_Z n == 0)%Q as -> by ring.
  change (Qabs 0) with 0%Q.
  apply Qle_shift_div_l; [reflexivity|].
  rewrite Qmult_0_l. apply Qabs_nonneg.
Qed.

(** X11.  Where the columns of the mapped frame are in step (the rows of
    the source are numbered, or it has both [lOComment] and [n]), mapping
    neither drops nor adds rows: the mapped frame has as many rows as the
    source, in the same order, the [loc] feature of row [i] being the
    [loc] cell of row [i] as a float (rows are only removed later, by
    [dropna]). *)
Theorem mapping_keeps_the_rows
    (cv : Conversions) (df : RawFrame) (fr : Frame) :
  Frames.in_step_with_source df ->
  _map_promise_to_features df = Ok fr ->
  length fr = nrows df
  /\ forall i r loc c,
       fr !! i = Some r ->
       first_present df ["loc"; "lOCode"; "locCodeAndComment"] = Some loc ->
       loc !! i = Some c ->
       features r !! index_of "loc" FEATURE_COLUMNS = cell_float c.
Proof.
  intros Hstep Hmap.
  destruct (map_Ok_in_step df fr Hstep Hmap)
    as (? & loc' & ? & n_f & loc_1 & loc_f & ? & ? & ? & _ & Hloc' & _ & _
        & _ & Hlocf & _ & _ & _ & Hlen & Hrows).
  split; [exact Hlen|].
  intros i r loc c Hr Hloc Hc.
  rewrite Hloc in Hloc'. injection Hloc' as <-.
  destruct (Hrows i r Hr) as [_ ->].
  rewrite build_row_features.
  apply cast_Ok_Forall2 in Hlocf.
  destruct (Forall2_lookup_l _ _ _ _ _ Hlocf Hc) as (fl & Hfli & Hfl).
  unfold float_at, cell_at. cbn [mbind option_bind].
  rewrite Hfli, Hfl. reflexivity.
Qed.

Lemma dropna_concat (frames : list PromiseIngest.Frame) :
  dropna (concat frames) = concat (map dropna frames).
Proof.
  unfold dropna, PromiseIngest.Frame in *.
  induction frames as [|fr frames IH]; [reflexivity|].
  cbn [concat map]. rewrite filter_app, IH. reflexivity.
Qed.

(** X20.  The ingestor reads the five known files and no other: its answer
    is the same for two directories that agree on them.  The answer holds
    the complete rows of the mapped sources, source after source in the
    order cm1, kc1, kc2, pc1, jm1 (dropping incomplete rows after
    concatenation or per source makes no difference). *)
Theorem ingestor_reads_the_known_files_in_order
    (cv : Conversions) (files : gmap (list N) csvfile) (base_dir : list N) :
  (forall files' : gmap (list N) csvfile,
     (forall name,
        name ∈ PROMISE_FILENAMES ->
        files' !! path_join base_dir name
        = files !! path_join base_dir name) ->
     load_promise_datasets files' base_dir
     = load_promise_datasets files base_dir)
  /\ load_promise_datasets files base_dir
     = match omap (load_source files base_dir)
               (map lit ["cm1.csv"; "kc1.csv"; "kc2.csv"; "pc1.csv";
                         "jm1.csv"]) with
       | [] => None
       | frames => Some (concat (map dropna frames))
       end.
Proof.
  split.
  - intros files' Hagree. unfold load_promise_datasets.
    rewrite (list_omap_ext _ (load_source files base_dir)
               PROMISE_FILENAMES PROMISE_FILENAMES); [reflexivity|].
    apply Forall_Forall2_diag, Forall_forall. intros name Hin.
    unfold load_source. rewrite (Hagree name Hin). reflexivity.
  - unfold load_promise_datasets.
    change (map lit ["cm1.csv"; "kc1.csv"; "kc2.csv"; "pc1.csv"; "jm1.csv"])
      with PROMISE_FILENAMES.
    destruct (omap (load_source files base_dir) PROMISE_FILENAMES)
      as [|fr frames]; [reflexivity|].
    rewrite dropna_concat. reflexivity.
Qed.

(** ** Reading an upload *)

Import Upload WebApp.

Lemma utf8_decode_length (n : nat) :
  forall raw text,
    (length raw <= n)%nat ->
    utf8_decode raw = Some text ->
    (length text <= length raw)%nat.
Proof.
  induction n as [|n IH]; intros raw text Hn Hdec.
  - destruct raw; [|simpl in Hn; lia]. injection Hdec as <-. reflexivity.
  - destruct raw as [|b0 t0]; [injection Hdec as <-; reflexivity|].
    simpl in Hn. cbn [utf8_decode] in Hdec.
    destruct (b0 <? 128).
    { destruct (utf8_decode t0) as [u|] eqn:Hu; [|discriminate].
      injection Hdec as <-. apply IH in Hu; simpl; lia. }
    destruct (in_range 194 223 b0).
    { destruct t0 as [|b1 t1]; [discriminate|].
      destruct (is_cont b1); [|discriminate].
      destruct (utf8_decode t1) as [u|] eqn:Hu; [|discriminate].
      injection Hdec as <-. apply IH in Hu; simpl in *; lia. }
    destruct (in_range 224 239 b0).
    { destruct t0 as [|b1 [|b2 t2]]; try discriminate.
      destruct (second_ok b0 b1 && is_cont b2); [|discriminate].
      destruct (utf8_decode t2) as [u|] eqn:Hu; [|discriminate].
      injection Hdec as <-. apply IH in Hu; simpl in *; lia. }
    destruct (in_range 240 244 b0); [|discriminate].
    destruct t0 as [|b1 [|b2 [|b3 t3]]]; try discriminate.
    destruct (second_ok b0 b1 && is_cont b2 && is_cont b3); [|discriminate].
    destruct (utf8_decode t3) as [u|] eqn:Hu; [|discriminate].
    injection Hdec as <-. apply IH in Hu; simpl in *; lia.
Qed.

Lemma utf8_decode_ascii (raw : list N) :
  Forall (fun b => b < 128) raw -> utf8_decode raw = Some raw.
Proof.
  induction 1 as [|b raw Hb _ IH]; [reflexivity|].
  cbn [utf8_decode]. apply N.ltb_lt in Hb. rewrite Hb, IH. reflexivity.
Qed.

Lemma read_exhausts (f : stream) : remaining (snd (read f)) = [].
Proof.
  unfold read, remaining. simpl. apply drop_ge. lia.
Qed.

(** X12.  [_read_file_storage_to_text] (Flask) returns a text for every
    upload and loses no byte: the text never has more characters than the
    upload has bytes; bytes that are not UTF-8 come back one character per
    byte, and plain ASCII comes back as it is.  The stream is left at its
    end. *)
Theorem flask_reader_keeps_the_upload (f : stream) :
  let text := fst (_read_file_storage_to_text f) in
  (length text <= length (remaining f))%nat
  /\ (utf8_decode (remaining f) = None -> text = remaining f)
  /\ (forall decoded, utf8_decode (remaining f) = Some decoded ->
                      text = decoded)
  /\ (Forall (fun b => b < 128) (remaining f) -> text = remaining f)
  /\ remaining (snd (_read_file_storage_to_text f)) = [].
Proof.
  assert (forall u, utf8_decode (remaining f) = u ->
            _read_file_storage_to_text f
            = (match u with
               | Some text => text
               | None => remaining f
               end, snd (read f))) as Hread.
  { intros u <-. unfold _read_file_storage_to_text. simpl.
    destruct (utf8_decode (remaining f)); reflexivity. }
  intros text. unfold text.
  destruct (utf8_decode (remaining f)) as [u|] eqn:Hu;
    rewrite (Hread _ eq_refl); simpl.
  - split; [eapply utf8_decode_length; [reflexivity | exact Hu]|].
    split; [discriminate|]. split; [congruence|].
    split; [|apply read_exhausts].
    intros Hascii. apply utf8_decode_ascii in Hascii. congruence.
  - split; [reflexivity|]. split; [reflexivity|]. split; [discriminate|].
    split; [reflexivity | apply read_exhausts].
Qed.

(** X13.  In [streamlit_app.py] the fallback reads the file a second time,
    when nothing is left: an upload that is not valid UTF-8 is analysed as
    the empty text, whatever it holds, and shows the metrics of an empty
    file. *)
Theorem streamlit_reader_drops_non_utf8_upload
    (db : UnicodeDB) (f : stream) :
  utf8_decode (remaining f) = None ->
  fst (read_code_text f) = []
  /\ analyze_code (fst (read_code_text f)) !! "loc" = Some 0%Q
  /\ analyze_code (fst (read_code_text f)) !! "num_comments" = Some 0%Q
  /\ analyze_code (fst (read_code_text f)) !! "num_functions" = Some 0%Q
  /\ analyze_code (fst (read_code_text f))
       !! "cyclomatic_complexity_estimate" = Some 1%Q
  /\ analyze_code (fst (read_code_text f)) !! "avg_line_length" = Some 0%Q
  /\ analyze_code (fst (read_code_text f)) !! "num_todos" = Some 0%Q.
Proof.
  intros Hbad.
  assert (fst (read_code_text f) = []) as ->.
  { unfold read_code_text. simpl. rewrite Hbad. simpl.
    unfold latin1_decode. apply (read_exhausts f). }
  repeat split; reflexivity.
Qed.

(** ** The request handler *)

Lemma mapM_id_Some {A : Type} (l : list A) : mapM id (map Some l) = Some l.
Proof.
  apply mapM_Some. induction l; constructor; [reflexivity | assumption].
Qed.

Lemma predict_first_features `{UnicodeDB} `{Libraries}
    (model : pyobj) (code_text : list N) :
  predict_first model (metrics_to_features (analyze_code code_text))
  = predict model (feature_vector code_text).
Proof.
  unfold predict_first. rewrite metrics_to_features_rows.
  change (map (fun name => Some (default 0%Q (analyze_code code_text !! name)))
            FEATURE_COLUMNS)
    with (map Some (feature_vector code_text)).
  rewrite mapM_id_Some. reflexivity.
Qed.

(** X14.  Without the artifact (no file at the path, or one that cannot
    be opened) the handler still answers every upload that has a file
    name: the page is rendered with the metrics of the uploaded text, the
    verdict of the fallback classifier on its six features, and the
    fallback's name. *)
Theorem handler_answers_without_artifact
    (db : UnicodeDB) (L : Libraries) (P : Pickle)
    (filename : list N) (uploaded : stream) (model_path : list N)
    (w : world) :
  filename <> [] ->
  (fs w !! model_path = None
   \/ fs w !! model_path = Some Unopenable) ->
  let code_text := fst (_read_file_storage_to_text uploaded) in
  fst (index (POST (Some (filename, uploaded))) model_path w)
  = Rendered (Some
      {| is_defective :=
           negb (rf_predict (_train_fallback_model (entropy w))
                   (feature_vector code_text) =? 0)%Z;
         metrics_json := analyze_code code_text;
         model_name := fallback_name |}).
Proof.
  intros Hname Hfs code_text.
  assert (fst (load_or_train_model model_path w)
          = (PyClassifier (_train_fallback_model (entropy w)),
             fallback_name)) as Hload.
  { destruct Hfs as [Hfs|Hfs].
    - rewrite (load_absent _ _ Hfs). reflexivity.
    - rewrite (load_unopenable _ _ Hfs). reflexivity. }
  unfold index. destruct filename as [|c0 filename]; [congruence|].
  cbn [truthy]. fold code_text.
  destruct (load_or_train_model model_path w) as [[model name] w1].
  simpl in Hload. injection Hload as -> ->.
  rewrite predict_first_features. reflexivity.
Qed.

(** X15.  When the artifact unpickles to an object that cannot predict,
    the handler does not fall back: every upload with a file name makes
    it raise. *)
Theorem handler_fails_on_unusable_artifact
    (db : UnicodeDB) (L : Libraries) (P : Pickle)
    (filename : list N) (uploaded : stream) (model_path content : list N)
    (o : pyobj) (w : world) :
  filename <> [] ->
  fs w !! model_path = Some (Readable content) ->
  pickle_load content = Some o ->
  (forall x, predict o x = None) ->
  fst (index (POST (Some (filename, uploaded))) model_path w) = Failed.
Proof.
  intros Hname Hfs Hp Hno.
  unfold index. destruct filename as [|c0 filename]; [congruence|].
  cbn [truthy].
  rewrite (load_readable _ _ _ Hfs), Hp.
  rewrite predict_first_features, Hno. reflexivity.
Qed.

(** ** Choosing the target column and the best model *)

Import Detector.

Lemma find_common_name (columns : list string) (l : list string) :
  match List.find (fun col => bool_decide (col ∈ columns)) l with
  | Some c => c ∈ l /\ c ∈ columns
  | None => forall c, c ∈ l -> c ∉ columns
  end.
Proof.
  induction l as [|x l IH]; simpl.
  - intros c Hc. inversion Hc.
  - destruct (bool_decide (x ∈ columns)) eqn:Hx.
    + apply bool_decide_eq_true in Hx. split; [left | exact Hx].
    + apply bool_decide_eq_false in Hx.
      destruct (List.find _ l) as [c|].
      * destruct IH. split; [right|]; assumption.
      * intros c Hc. apply elem_of_cons in Hc as [->|Hc]; auto.
Qed.

(** The first name of a list that is a column. *)
Lemma find_first_column (columns : list string) (l : list string) (c : string) :
  List.find (fun col => bool_decide (col ∈ columns)) l = Some c ->
  exists before after,
    l = before ++ c :: after
    /\ c ∈ columns
    /\ forall earlier, earlier ∈ before -> earlier ∉ columns.
Proof.
  induction l as [|x l IH]; simpl; [discriminate|].
  destruct (bool_decide (x ∈ columns)) eqn:Hx.
  - intros [= <-]. apply bool_decide_eq_true in Hx.
    exists [], l. split; [reflexivity|]. split; [exact Hx|].
    intros earlier Hin. inversion Hin.
  - intros Hf. apply bool_decide_eq_false in Hx.
    destruct (IH Hf) as (before & after & -> & Hc & Hbefore).
    exists (x :: before), after. split; [reflexivity|].
    split; [exact Hc|].
    intros earlier Hin. apply elem_of_cons in Hin as [->|Hin]; auto.
Qed.

(** X16.  As soon as the frame has a column with one of the six usual
    names, [detect_target_column] returns the first of them in the order
    label, defects, defect, target, class, bug that is a column of the
    frame (no name before it in that order is one), and the
    [target_column] given to the constructor has no say. *)
Theorem usual_target_name_overrides_the_choice
    (given : option string) (columns : list string) (col : string) :
  col ∈ ["label"; "defects"; "defect"; "target"; "class"; "bug"] ->
  col ∈ columns ->
  exists c before after,
    detect_target_column given columns = Some c
    /\ ["label"; "defects"; "defect"; "target"; "class"; "bug"]
       = before ++ c :: after
    /\ c ∈ columns
    /\ (forall earlier, earlier ∈ before -> earlier ∉ columns)
    /\ (forall other, detect_target_column other columns = Some c).
Proof.
  intros Hp Hc. unfold detect_target_column.
  pose proof (find_common_name columns possible_targets) as Hfind.
  destruct (List.find _ possible_targets) as [c|] eqn:Hf.
  - apply find_first_column in Hf as (before & after & Hsplit & Hin & Hbefore).
    exists c, before, after. auto.
  - exfalso. exact (Hfind col Hp Hc).
Qed.

(** X17.  Left to itself ([target_column] not given), the detection
    returns a column of the frame whenever the frame has columns, and
    raises on a frame without any; a result that is no column of the
    frame can only be the name given to the constructor. *)
Theorem detected_target_is_a_column (columns : list string) :
  (columns <> [] ->
   exists c, detect_target_column None columns = Some c /\ c ∈ columns)
  /\ detect_target_column None [] = None
  /\ (forall given c,
        detect_target_column given columns = Some c ->
        c ∈ columns \/ given = Some c).
Proof.
  pose proof (find_common_name columns possible_targets) as Hfind.
  split; [|split; [reflexivity|]]; unfold detect_target_column.
  - intros Hne. destruct (List.find _ possible_targets) as [c|].
    + exists c. tauto.
    + destruct (last columns) as [c|] eqn:Hl.
      * exists c. split; [reflexivity|]. apply last_Some_elem_of, Hl.
      * apply last_None in Hl. congruence.
  - intros given c. destruct (List.find _ possible_targets) as [c'|].
    + intros [= <-]. tauto.
    + destruct given as [g|]; [intros [= <-]; auto|].
      intros Hl. left. apply last_Some_elem_of, Hl.
Qed.

Lemma loop_invariant_start :
  loop_invariant [] {| results := ∅; best_score := 0;
                       best_model_name := None |}.
Proof.
  constructor; simpl.
  - intros name sc. rewrite lookup_empty. split; [discriminate|].
    intros H. inversion H.
  - intros name sc H. inversion H.
  - apply Qle_refl.
  - reflexivity.
  - discriminate.
Qed.

Lemma loop_invariant_step (done : list (string * option scores))
    (d : detector) (name : string) (outcome : option scores) :
  name ∉ map fst done ->
  loop_invariant done d ->
  loop_invariant (done ++ [(name, outcome)])
    (evaluate_one d (name, outcome)).
Proof.
  intros Hfresh [Hres Hup Hnn Hnone Hbest].
  assert (forall sc, (name, Some sc) ∉ done) as Hnew.
  { intros sc Hin. apply Hfresh.
    apply (list_elem_of_fmap_2 fst) in Hin. exact Hin. }
  assert (forall b, best_model_name d = Some b ->
            exists j scb,
              (done ++ [(name, outcome)]) !! j = Some (b, Some scb)
              /\ best_score d = f1_score scb
              /\ (0 < f1_score scb)%Q
              /\ forall i n' sc,
                   (i < j)%nat ->
                   (done ++ [(name, outcome)]) !! i = Some (n', Some sc) ->
                   (f1_score sc < f1_score scb)%Q) as Hkeep.
  { intros b Hb. destruct (Hbest b Hb) as (j & scb & Hj & Hs & Hpos & Hlt).
    exists j, scb. pose proof (lookup_lt_Some _ _ _ Hj) as Hjlt.
    split; [rewrite lookup_app_l; assumption|].
    split; [exact Hs|]. split; [exact Hpos|].
    intros i n' sc Hi Hdone. rewrite lookup_app_l in Hdone by lia.
    eapply Hlt; eassumption. }
  unfold evaluate_one. simpl.
  destruct outcome as [sc0|].
  - assert (forall n' sc,
              <[name:=sc0]> (results d) !! n' = Some sc <->
              (n', Some sc) ∈ done ++ [(name, Some sc0)]) as Hres'.
    { intros n' sc. rewrite elem_of_app, list_elem_of_singleton.
      destruct (decide (name = n')) as [<-|Hne].
      - rewrite lookup_insert_eq. split.
        + intros [= <-]. auto.
        + intros [Hin|Heq]; [destruct (Hnew _ Hin) | congruence].
      - rewrite lookup_insert_ne by exact Hne. rewrite Hres.
        split; [auto|]. intros [Hin|Heq]; [exact Hin | congruence]. }
    destruct (Qlt_le_dec (best_score d) (f1_score sc0)) as [Hlt|Hle];
      constructor; simpl; try exact Hres'.
    + intros n' sc Hin. apply elem_of_app in Hin as [Hin|Hin].
      * apply Qlt_le_weak. eapply Qle_lt_trans; [apply (Hup _ _ Hin)|].
        exact Hlt.
      * apply list_elem_of_singleton in Hin. injection Hin as _ ->.
        apply Qle_refl.
    + apply Qlt_le_weak. eapply Qle_lt_trans; eassumption.
    + discriminate.
    + intros b [= <-]. exists (length done), sc0.
      split; [apply list_lookup_middle; reflexivity|].
      split; [reflexivity|].
      split; [eapply Qle_lt_trans; eassumption|].
      intros i n' sc Hi Hdone. rewrite lookup_app_l in Hdone by exact Hi.
      eapply Qle_lt_trans; [|exact Hlt].
      eapply Hup, list_elem_of_lookup_2, Hdone.
    + intros n' sc Hin. apply elem_of_app in Hin as [Hin|Hin].
      * apply (Hup _ _ Hin).
      * apply list_elem_of_singleton in Hin. injection Hin as _ ->.
        exact Hle.
    + exact Hnn.
    + exact Hnone.
    + exact Hkeep.
  - assert (forall n' sc,
              (n', Some sc) ∈ done ++ [(name, None)] -> (n', Some sc) ∈ done)
      as Hsame.
    { intros n' sc Hin. apply elem_of_app in Hin as [Hin|Hin]; [exact Hin|].
      apply list_elem_of_singleton in Hin. congruence. }
    constructor; try assumption.
    + intros n' sc. rewrite Hres. split; [|apply Hsame].
      intros Hin. apply elem_of_app. auto.
    + intros n' sc Hin. apply (Hup n'), Hsame, Hin.
Qed.

Lemma loop_invariant_run (models : list (string * option scores)) :
  NoDup (map fst models) ->
  loop_invariant models (train_and_evaluate models fresh).
Proof.
  unfold train_and_evaluate, fresh. simpl.
  induction models as [|[name outcome] models IH] using rev_ind;
    intros Hnd.
  - apply loop_invariant_start.
  - rewrite fold_left_app. simpl.
    rewrite map_app in Hnd. simpl in Hnd.
    apply NoDup_app in Hnd as (Hnd & Hfresh & _).
    apply loop_invariant_step; [|apply IH, Hnd].
    intros Hin. apply (Hfresh _ Hin). left.
Qed.

(** X18.  After [train_and_evaluate] on a fresh detector, the results hold
    exactly the models whose round went through; the best model is one of
    them, has a positive F1 that no other result exceeds, and is the
    earliest with that F1 (every earlier model scored strictly lower).  No
    best model is chosen exactly when no result has a positive F1. *)
Theorem best_model_has_the_highest_f1
    (models : list (string * option scores)) :
  NoDup (map fst models) ->
  let d := train_and_evaluate models fresh in
  (forall name sc,
     results d !! name = Some sc <-> (name, Some sc) ∈ models)
  /\ (forall name sc,
        results d !! name = Some sc -> (f1_score sc <= best_score d)%Q)
  /\ (forall b,
        best_model_name d = Some b ->
        exists j scb,
          models !! j = Some (b, Some scb)
          /\ results d !! b = Some scb
          /\ best_score d = f1_score scb
          /\ (0 < f1_score scb)%Q
          /\ forall i name sc,
               (i < j)%nat -> models !! i = Some (name, Some sc) ->
               (f1_score sc < f1_score scb)%Q)
  /\ (best_model_name d = None <->
      forall name sc,
        results d !! name = Some sc -> (f1_score sc <= 0)%Q).
Proof.
  intros Hnd d.
  destruct (loop_invariant_run models Hnd) as [Hres Hup Hnn Hnone Hbest].
  fold d in Hres, Hup, Hnn, Hnone, Hbest.
  split; [exact Hres|].
  split; [intros name sc Hr; apply (Hup name), Hres, Hr|].
  split.
  { intros b Hb. destruct (Hbest b Hb) as (j & scb & Hj & Hs & Hpos & Hlt).
    exists j, scb. split; [exact Hj|].
    split; [eapply Hres, list_elem_of_lookup_2, Hj|]. auto. }
  split.
  - intros Hn name sc Hr. rewrite <- (Hnone Hn).
    apply (Hup name), Hres, Hr.
  - intros Hall. destruct (best_model_name d) as [b|] eqn:Hb; [|reflexivity].
    exfalso. destruct (Hbest b eq_refl) as (j & scb & Hj & _ & Hpos & _).
    apply list_elem_of_lookup_2, Hres, Hall in Hj.
    exact (Qlt_not_le _ _ Hpos Hj).
Qed.

Lemma best_is_a_result (models : list (string * option scores))
    (d : detector) :
  (forall b, best_model_name d = Some b -> is_Some (results d !! b)) ->
  forall b,
    best_model_name (fold_left evaluate_one models d) = Some b ->
    is_Some (results (fold_left evaluate_one models d) !! b).
Proof.
  revert d. induction models as [|[name outcome] models IH]; intros d Hd;
    [exact Hd|].
  simpl. apply IH. unfold evaluate_one. simpl.
  destruct outcome as [sc|]; [|exact Hd].
  destruct (Qlt_le_dec (best_score d) (f1_score sc)); simpl; intros b Hb.
  - injection Hb as <-. rewrite lookup_insert_eq. eauto.
  - apply lookup_insert_is_Some. destruct (decide (name = b)); auto.
Qed.

(** X19.  After [train_and_evaluate] on a fresh detector,
    [save_best_model] always finds the scores of the best model (or finds
    that there is none to save).  On a detector that is trained a second
    time this can fail: the results are reset but the best model is kept,
    and its scores may be gone. *)
Theorem save_finds_the_best_scores_on_a_fresh_detector :
  (forall models,
     saved_scores (train_and_evaluate models fresh) <> Some None)
  /\ exists first second,
       saved_scores
         (train_and_evaluate second (train_and_evaluate first fresh))
       = Some None.
Proof.
  split.
  - intros models. unfold saved_scores.
    destruct (best_model_name (train_and_evaluate models fresh)) as [b|]
      eqn:Hb; [|discriminate].
    assert (is_Some (results (train_and_evaluate models fresh) !! b))
      as [sc Hsc] by (apply best_is_a_result; [discriminate | exact Hb]).
    rewrite Hsc. discriminate.
  - exists [("Random Forest",
             Some {| accuracy := 9 # 10; precision := 9 # 10;
                     recall := 9 # 10; f1_score := 9 # 10 |})],
           [("KNN",
             Some {| accuracy := 1 # 2; precision := 1 # 2;
                     recall := 1 # 2; f1_score := 1 # 2 |})].
    vm_compute. reflexivity.
Qed.

(** ** Worked instances for Part III *)

Section MoreInstances.
Import Sample Inputs Frames MoreInputs.

Lemma text_without_words_gets_baseline_witness :
  Forall (fun c => isword c = false) punctuation_text
  /\ analyze_code punctuation_text !! "num_functions" = Some 0%Q
  /\ analyze_code punctuation_text !! "cyclomatic_complexity_estimate"
     = Some 1%Q
  /\ analyze_code punctuation_text !! "num_todos" = Some 0%Q.
Proof.
  assert (Forall (fun c => isword c = false) punctuation_text) as Hall
    by (repeat constructor).
  split; [exact Hall|].
  apply (text_without_words_gets_baseline plain_ascii punctuation_text Hall).
Defined.

Lemma tags_are_counted_in_any_case_witness :
  (map tolower (lit "FixMe") = lit "todo"
   \/ map tolower (lit "FixMe") = lit "fixme")
  /\ forallb is_ascii (lit "FixMe") = true
  /\ word_of (last (lit "x = 1  # ")) = false
  /\ word_of (head (lit ": later")) = false
  /\ exists t : nat,
       analyze_code (lit "x = 1  # " ++ lit "FixMe" ++ lit ": later")
         !! "num_todos" = Some (float_of_nat t)
       /\ (1 <= t)%nat.
Proof.
  split; [right; reflexivity|]. split; [reflexivity|].
  split; [reflexivity|]. split; [reflexivity|].
  apply (tags_are_counted_in_any_case plain_ascii
           (lit "x = 1  # ") (lit "FixMe") (lit ": later"));
    try reflexivity.
  right. reflexivity.
Defined.

Lemma ingested_rows_fit_the_schema_witness :
  load_promise_datasets mixed_batch data_dir = Some two_rows_mapped
  /\ mk_row (Fin (inject_Z 10)) (Fin 0) (Fin (inject_Z 2))
       (Fin (0 / inject_Z 10)) 1 ∈ two_rows_mapped
  /\ length (features (mk_row (Fin (inject_Z 10)) (Fin 0) (Fin (inject_Z 2))
                         (Fin (0 / inject_Z 10)) 1))
     = length FEATURE_COLUMNS
  /\ features (mk_row (Fin (inject_Z 10)) (Fin 0) (Fin (inject_Z 2))
                 (Fin (0 / inject_Z 10)) 1)
       !! index_of "num_functions" FEATURE_COLUMNS = Some (Fin 0)
  /\ features (mk_row (Fin (inject_Z 10)) (Fin 0) (Fin (inject_Z 2))
                 (Fin (0 / inject_Z 10)) 1)
       !! index_of "num_todos" FEATURE_COLUMNS = Some (Fin 0)
  /\ Forall (fun x => x <> NaN)
       (features (mk_row (Fin (inject_Z 10)) (Fin 0) (Fin (inject_Z 2))
                    (Fin (0 / inject_Z 10)) 1)).
Proof.
  assert (load_promise_datasets mixed_batch data_dir = Some two_rows_mapped)
    as Hload by (vm_compute; reflexivity).
  assert (mk_row (Fin (inject_Z 10)) (Fin 0) (Fin (inject_Z 2))
            (Fin (0 / inject_Z 10)) 1 ∈ two_rows_mapped) as Hin by left.
  split; [exact Hload|]. split; [exact Hin|].
  apply (ingested_rows_fit_the_schema conversions mixed_batch data_dir
           two_rows_mapped _ Hload Hin).
Defined.

Lemma defects_labels_are_binary_witness :
  has_column two_rows "defects" = true
  /\ _map_promise_to_features two_rows = Ok two_rows_mapped
  /\ mk_row (Fin (inject_Z 0)) (Fin 0) (Fin (inject_Z 1))
       (Fin (0 / inject_Z 1)) 0 ∈ two_rows_mapped
  /\ (let r := mk_row (Fin (inject_Z 0)) (Fin 0) (Fin (inject_Z 1))
                  (Fin (0 / inject_Z 1)) 0 in
      (label r = None \/ label r = Some 0%Z \/ label r = Some 1%Z)
      /\ (in_step_with_source two_rows -> well_formed two_rows ->
          label r = Some 0%Z \/ label r = Some 1%Z)
      /\ (r ∈ dropna two_rows_mapped ->
          label r = Some 0%Z \/ label r = Some 1%Z)).
Proof.
  assert (_map_promise_to_features two_rows = Ok two_rows_mapped) as Hmap
    by (vm_compute; reflexivity).
  assert (mk_row (Fin (inject_Z 0)) (Fin 0) (Fin (inject_Z 1))
            (Fin (0 / inject_Z 1)) 0 ∈ two_rows_mapped) as Hin
    by (right; left).
  split; [reflexivity|]. split; [exact Hmap|]. split; [exact Hin|].
  apply (defects_labels_are_binary conversions two_rows two_rows_mapped _
           eq_refl Hmap Hin).
Defined.

Lemma odd_defects_value_fails_the_source_witness :
  yes_no_batch !! path_join data_dir (lit "pc1.csv")
  = Some (Parsed yes_no_rows)
  /\ get yes_no_rows "defects"
     = Some [CStr (lit "false"); CStr (lit "yes")]
  /\ CStr (lit "yes") ∈ [CStr (lit "false"); CStr (lit "yes")]
  /\ label_map (lower (cell_str (CStr (lit "yes")))) = None
  /\ (exists e, _map_promise_to_features yes_no_rows = Raise e)
  /\ load_source yes_no_batch data_dir (lit "pc1.csv") = None
  /\ source_failed yes_no_batch data_dir (lit "pc1.csv") = true.
Proof.
  assert (CStr (lit "yes") ∈ [CStr (lit "false"); CStr (lit "yes")])
    as Hin by (right; left).
  split; [reflexivity|]. split; [reflexivity|]. split; [exact Hin|].
  split; [reflexivity|].
  apply (odd_defects_value_fails_the_source conversions yes_no_batch
           data_dir (lit "pc1.csv") yes_no_rows
           [CStr (lit "false"); CStr (lit "yes")] (CStr (lit "yes"))
           eq_refl eq_refl Hin eq_refl).
Defined.

Lemma avg_line_length_is_n_over_loc_witness :
  in_step_with_source halstead_rows
  /\ _map_promise_to_features halstead_rows = Ok halstead_mapped
  /\ halstead_mapped !! 1%nat
     = Some (mk_row (Fin (inject_Z 0)) (Fin 0) (Fin (inject_Z 1))
               (Fin (inject_Z 7 / inject_Z 1)) 0)
  /\ first_present halstead_rows ["loc"; "lOCode"; "locCodeAndComment"]
     = Some [CInt 10; CInt 0]
  /\ [CInt 10; CInt 0] !! 1%nat = Some (CInt 0)
  /\ (0 <= 0 <= 2 ^ 53)%Z
  /\ (- 2 ^ 53 <= 7 <= 2 ^ 53)%Z
  /\ (match get halstead_rows "n" with
      | Some n_total => n_total !! 1%nat = Some (CInt 7)
      | None => 7%Z = 0%Z
      end)
  /\ features (mk_row (Fin (inject_Z 0)) (Fin 0) (Fin (inject_Z 1))
                 (Fin (inject_Z 7 / inject_Z 1)) 0)
       !! index_of "loc" FEATURE_COLUMNS = Some (Fin (inject_Z 0))
  /\ exists q,
       features (mk_row (Fin (inject_Z 0)) (Fin 0) (Fin (inject_Z 1))
                   (Fin (inject_Z 7 / inject_Z 1)) 0)
         !! index_of "avg_line_length" FEATURE_COLUMNS = Some (Fin q)
       /\ ((Z.max 0 1 | 7)%Z -> q == inject_Z (7 / Z.max 0 1))
       /\ ((0 <= 1)%Z -> q == inject_Z 7)
       /\ ((0 <= 7)%Z -> 0 <= q)%Q
       /\ ((7 <= 0)%Z -> q <= 0)%Q
       /\ (Qabs (q * inject_Z (Z.max 0 1) - inject_Z 7)
           <= Qabs (inject_Z 7) / inject_Z (2 ^ 53))%Q.
Proof.
  assert (in_step_with_source halstead_rows) as Hstep by (left; reflexivity).
  assert (_map_promise_to_features halstead_rows = Ok halstead_mapped)
    as Hmap by (vm_compute; reflexivity).
  split; [exact Hstep|].
  split; [exact Hmap|]. split; [reflexivity|]. split; [reflexivity|].
  split; [reflexivity|]. split; [lia|]. split; [lia|].
  split; [reflexivity|].
  apply (avg_line_length_is_n_over_loc conversions halstead_rows
           halstead_mapped [CInt 10; CInt 0] 1%nat _ 0%Z 7%Z Hstep Hmap
           eq_refl eq_refl eq_refl);
    [lia | lia | reflexivity].
Defined.

Lemma mapping_keeps_the_rows_witness :
  in_step_with_source labelled_full_rows
  /\ _map_promise_to_features labelled_full_rows = Ok labelled_full_mapped
  /\ length labelled_full_mapped = nrows labelled_full_rows
  /\ forall i r loc c,
       labelled_full_mapped !! i = Some r ->
       first_present labelled_full_rows
         ["loc"; "lOCode"; "locCodeAndComment"] = Some loc ->
       loc !! i = Some c ->
       features r !! index_of "loc" FEATURE_COLUMNS = cell_float c.
Proof.
  assert (in_step_with_source labelled_full_rows) as Hstep
    by (right; split; reflexivity).
  assert (_map_promise_to_features labelled_full_rows
          = Ok labelled_full_mapped)
    as Hmap by (vm_compute; reflexivity).
  split; [exact Hstep|]. split; [exact Hmap|].
  apply (mapping_keeps_the_rows conversions labelled_full_rows
           labelled_full_mapped Hstep Hmap).
Defined.

Lemma streamlit_reader_drops_non_utf8_upload_witness :
  utf8_decode (remaining (upload cafe_latin1)) = None
  /\ fst (read_code_text (upload cafe_latin1)) = []
  /\ analyze_code (fst (read_code_text (upload cafe_latin1))) !! "loc"
     = Some 0%Q
  /\ analyze_code (fst (read_code_text (upload cafe_latin1)))
       !! "num_comments" = Some 0%Q
  /\ analyze_code (fst (read_code_text (upload cafe_latin1)))
       !! "num_functions" = Some 0%Q
  /\ analyze_code (fst (read_code_text (upload cafe_latin1)))
       !! "cyclomatic_complexity_estimate" = Some 1%Q
  /\ analyze_code (fst (read_code_text (upload cafe_latin1)))
       !! "avg_line_length" = Some 0%Q
  /\ analyze_code (fst (read_code_text (upload cafe_latin1)))
       !! "num_todos" = Some 0%Q.
Proof.
  split; [reflexivity|].
  apply (streamlit_reader_drops_non_utf8_upload plain_ascii
           (upload cafe_latin1)).
  reflexivity.
Defined.

Lemma handler_answers_without_artifact_witness :
  lit "main.py" <> []
  /\ (fs fresh_machine !! model_path = None
      \/ fs fresh_machine !! model_path = Some Unopenable)
  /\ (let code_text :=
        fst (_read_file_storage_to_text (upload cafe_latin1)) in
      fst (index (POST (Some (lit "main.py", upload cafe_latin1)))
             model_path fresh_machine)
      = Rendered (Some
          {| is_defective :=
               negb (rf_predict
                       (_train_fallback_model (entropy fresh_machine))
                       (feature_vector code_text) =? 0)%Z;
             metrics_json := analyze_code code_text;
             model_name := fallback_name |})).
Proof.
  split; [discriminate|]. split; [left; reflexivity|].
  apply (handler_answers_without_artifact plain_ascii libraries pickle
           (lit "main.py") (upload cafe_latin1) model_path fresh_machine).
  - discriminate.
  - left. reflexivity.
Defined.

Lemma handler_fails_on_unusable_artifact_witness :
  lit "main.py" <> []
  /\ fs odd_machine !! model_path = Some (Readable [78; 46])
  /\ pickle_load [78; 46] = Some PyNone
  /\ (forall x, predict PyNone x = None)
  /\ fst (index (POST (Some (lit "main.py", upload cafe_latin1)))
            model_path odd_machine) = Failed.
Proof.
  split; [discriminate|]. split; [reflexivity|]. split; [reflexivity|].
  split; [reflexivity|].
  apply (handler_fails_on_unusable_artifact plain_ascii libraries pickle
           (lit "main.py") (upload cafe_latin1) model_path [78; 46] PyNone
           odd_machine).
  - discriminate.
  - reflexivity.
  - reflexivity.
  - reflexivity.
Defined.

Lemma usual_target_name_overrides_the_choice_witness :
  "bug" ∈ ["label"; "defects"; "defect"; "target"; "class"; "bug"]
  /\ "bug" ∈ ["loc"; "bug"; "defects"; "severity"]
  /\ exists c before after,
       detect_target_column (Some "severity")
         ["loc"; "bug"; "defects"; "severity"] = Some c
       /\ ["label"; "defects"; "defect"; "target"; "class"; "bug"]
          = before ++ c :: after
       /\ c ∈ ["loc"; "bug"; "defects"; "severity"]
       /\ (forall earlier,
             earlier ∈ before ->
             earlier ∉ ["loc"; "bug"; "defects"; "severity"])
       /\ (forall other,
             detect_target_column other
               ["loc"; "bug"; "defects"; "severity"] = Some c).
Proof.
  assert ("bug" ∈ ["label"; "defects"; "defect"; "target"; "class"; "bug"])
    as H1 by (do 5 right; left).
  assert ("bug" ∈ ["loc"; "bug"; "defects"; "severity"]) as H2
    by (right; left).
  split; [exact H1|]. split; [exact H2|].
  apply (usual_target_name_overrides_the_choice (Some "severity")
           ["loc"; "bug"; "defects"; "severity"] "bug" H1 H2).
Defined.

(** On these columns the answer is [defects], which comes before [bug]. *)
Example defects_comes_before_bug :
  detect_target_column (Some "severity")
    ["loc"; "bug"; "defects"; "severity"] = Some "defects".
Proof. reflexivity. Qed.

Lemma best_model_has_the_highest_f1_witness :
  NoDup (map fst four_rounds)
  /\ (let d := train_and_evaluate four_rounds fresh in
      (forall name sc,
         results d !! name = Some sc <-> (name, Some sc) ∈ four_rounds)
      /\ (forall name sc,
            results d !! name = Some sc -> (f1_score sc <= best_score d)%Q)
      /\ (forall b,
            best_model_name d = Some b ->
            exists j scb,
              four_rounds !! j = Some (b, Some scb)
              /\ results d !! b = Some scb
              /\ best_score d = f1_score scb
              /\ (0 < f1_score scb)%Q
              /\ forall i name sc,
                   (i < j)%nat -> four_rounds !! i = Some (name, Some sc) ->
                   (f1_score sc < f1_score scb)%Q)
      /\ (best_model_name d = None <->
          forall name sc,
            results d !! name = Some sc -> (f1_score sc <= 0)%Q)).
Proof.
  assert (NoDup (map fst four_rounds)) as Hnd by compute_done.
  split; [exact Hnd|].
  apply (best_model_has_the_highest_f1 four_rounds Hnd).
Defined.

(** On the four rounds the first of the two models with F1 0.8 wins. *)
Example four_rounds_best :
  best_model_name (train_and_evaluate four_rounds fresh)
  = Some "Logistic Regression".
Proof. reflexivity. Qed.

End MoreInstances.
